(** * amazon_clone: the React storefront client and its checkout contract

    A shallow embedding of [frontend/src/App.js], [CartItem.jsx],
    [ProductCard.jsx] and [Header.jsx], together with the order service that
    the client talks to.

    Conventions of the embedding.
    - A JS string is the list of its UTF-16 code units.  [trim] strips the
      WhiteSpace and LineTerminator code points of ECMAScript;
      [toLowerCase] depends on the Unicode tables of the engine and is a
      member of the host interface [JS.Platform], of which only the
      folding of ASCII strings is assumed.
    - Prices and totals are JS numbers, that is binary64 floats; sums and
      products of money are the rounded ones of the engine.
    - Identifiers, quantities, stock and indices are integral and kept as
      [Z], with the arithmetic of integers: that of the engine as long as
      the values stay below 2^53.  The value [NaN] is kept only where the
      code can produce it ([parseInt], [%]).
    - A React handler closes over the state of the render that created it.
      A handler is therefore a function of that state [st]: every read goes
      to [st], every [setX(v)] is the record update [setX v].
    - [await fetch(...)] suspends [handleCheckout]: what follows it runs
      when the response arrives, on the state current by then. *)

From Stdlib Require Import ZArith NArith List String Ascii Bool Lia.
From Stdlib Require Import PrimFloat FloatOps SpecFloat.
Import ListNotations.
Open Scope Z_scope.
Set Warnings "-inexact-float".

(** ** JavaScript primitives used by the client *)

Module JS.

(** A number that may be [NaN]. *)
Inductive number := Num (z : Z) | NaN.

(** [a % n] for an integral [n]: the remainder takes the sign of the
    dividend, and a zero divisor gives [NaN]. *)
Definition rem (a : number) (n : Z) : number :=
  match a with
  | Num z => if n =? 0 then NaN else Num (Z.rem z n)
  | NaN => NaN
  end.

Definition add (a : number) (k : Z) : number :=
  match a with
  | Num z => Num (z + k)
  | NaN => NaN
  end.

(** The binary64 value of an integer, rounded to nearest, ties to even. *)
Definition ofZ (z : Z) : float :=
  SF2Prim (binary_normalize prec emax z 0 false).

(** A string: its UTF-16 code units. *)
Definition string : Type := list N.

(** The string an ASCII literal of the source denotes. *)
Definition lit (s : String.string) : string :=
  map N_of_ascii (list_ascii_of_string s).

(** [a === b] on strings. *)
Fixpoint eqb (a b : string) : bool :=
  match a, b with
  | [], [] => true
  | c :: a', d :: b' => (c =? d)%N && eqb a' b'
  | _, _ => false
  end.

(** Truthiness of a string: only the empty string is falsy. *)
Definition truthy (s : string) : bool :=
  match s with
  | [] => false
  | _ :: _ => true
  end.

(** WhiteSpace and LineTerminator of ECMAScript, by code unit:
    TAB, LF, VT, FF, CR, SPACE, U+00A0, U+1680, U+2000 to U+200A, U+2028,
    U+2029, U+202F, U+205F, U+3000 and U+FEFF. *)
Definition isWhiteSpace (c : N) : bool :=
  ((9 <=? c) && (c <=? 13) || (c =? 32) || (c =? 160) || (c =? 5760)
   || (8192 <=? c) && (c <=? 8202) || (c =? 8232) || (c =? 8233)
   || (c =? 8239) || (c =? 8287) || (c =? 12288) || (c =? 65279))%N.

Fixpoint trimStart (s : string) : string :=
  match s with
  | [] => []
  | c :: s' => if isWhiteSpace c then trimStart s' else s
  end.

Fixpoint trimEnd (s : string) : string :=
  match s with
  | [] => []
  | c :: s' =>
      match trimEnd s' with
      | [] => if isWhiteSpace c then [] else [c]
      | r => c :: r
      end
  end.

(** [String.prototype.trim] *)
Definition trim (s : string) : string := trimEnd (trimStart s).

(** [s.startsWith(sub)] *)
Fixpoint startsWith (s sub : string) : bool :=
  match sub, s with
  | [], _ => true
  | c :: sub', d :: s' => (c =? d)%N && startsWith s' sub'
  | _ :: _, [] => false
  end.

(** [s.includes(sub)]: [sub] occurs in [s] at some position. *)
Fixpoint includes (s sub : string) : bool :=
  match s with
  | [] => startsWith [] sub
  | _ :: s' => startsWith s sub || includes s' sub
  end.

(** The lower case of an ASCII code unit: [A] to [Z] move to [a] to [z]. *)
Definition lowerAscii (c : N) : N :=
  if ((65 <=? c) && (c <=? 90))%N then (c + 32)%N else c.

Definition isAscii (s : string) : Prop := Forall (fun c => (c < 128)%N) s.

(** What the engine provides and the embedding does not define:
    [String.prototype.toLowerCase], whose result follows the Unicode case
    mappings the engine ships.  Of it only the case of a string of ASCII
    code units is assumed, where those mappings fold [A] to [Z] and leave
    every other code unit alone. *)
Class Platform := {
  toLowerCase : string -> string;
  toLowerCase_ascii :
    forall s : string, isAscii s -> toLowerCase s = map lowerAscii s
}.

(** Value of a digit in radix up to 36. *)
Definition digitValue (c : N) : option Z :=
  if ((48 <=? c) && (c <=? 57))%N then Some (Z.of_N (c - 48))
  else if ((97 <=? c) && (c <=? 122))%N then Some (Z.of_N (c - 87))
  else if ((65 <=? c) && (c <=? 90))%N then Some (Z.of_N (c - 55))
  else None.

(** The longest prefix of radix-[R] digits, read as an integer; [acc] is
    [None] until the first digit has been seen. *)
Fixpoint parseDigits (R : Z) (s : string) (acc : option Z) : option Z :=
  match s with
  | [] => acc
  | c :: s' =>
      match digitValue c with
      | Some d =>
          if d <? R
          then parseDigits R s' (Some (R * match acc with Some a => a | None => 0 end + d))
          else acc
      | None => acc
      end
  end.

(** [parseInt(s)] with no radix argument: leading white space is skipped,
    a sign is read, a [0x]/[0X] prefix selects radix 16, and the digits
    that follow are read; no digit at all gives [NaN]. *)
Definition parseInt (s : string) : number :=
  let s1 := trimStart s in
  let '(sign, s2) :=
    match s1 with
    | c :: r =>
        if (c =? 45)%N then (-1, r)
        else if (c =? 43)%N then (1, r)
        else (1, s1)
    | [] => (1, s1)
    end in
  let '(R, s3) :=
    match s2 with
    | c :: d :: r =>
        if ((c =? 48) && ((d =? 120) || (d =? 88)))%N then (16, r)
        else (10, s2)
    | _ => (10, s2)
    end in
  match parseDigits R s3 None with
  | Some m => Num (sign * m)
  | None => NaN
  end.

(** [x || d] on numbers: [NaN] and zero are falsy. *)
Definition orElse (x : number) (d : Z) : Z :=
  match x with
  | Num z => if z =? 0 then d else z
  | NaN => d
  end.

End JS.

(** ** Data model *)

(** A row of [products] as the client receives it from [/api/products]. *)
Module Product.
Record t := mk {
  id : Z;
  name : JS.string;
  price : float;
  category : JS.string;
  description : option JS.string;
  image_url : option JS.string;
  image_url2 : option JS.string;
  image_url3 : option JS.string;
  stock : Z;
  created_at : JS.string
}.
End Product.

(** A cart entry, the object literal built by [addToCart] and [buyNow].
    Its [id] is a draw of [Math.random()]; only equality of ids is ever
    observed, so a draw is represented by a natural number. *)
Module CartEntry.
Record t := mk {
  id : N;
  product_id : Z;
  name : JS.string;
  price : float;
  image_url : option JS.string;
  quantity : Z
}.

(** [{ ...item, quantity: q }] *)
Definition with_quantity (q : Z) (item : t) : t :=
  mk (id item) (product_id item) (name item) (price item) (image_url item) q.
End CartEntry.

(** An order as returned by [/api/checkout]. *)
Module Order.
Record t := mk {
  id : Z;
  total_amount : float;
  shipping_address : JS.string;
  status : JS.string;
  created_at : JS.string
}.
End Order.

(** One element of [checkoutData.items]. *)
Module LineItem.
Record t := mk {
  product_id : Z;
  name : JS.string;
  price : float;
  quantity : Z
}.
End LineItem.

(** The body posted to [/api/checkout]. *)
Module CheckoutData.
Record t := mk {
  shipping_address : JS.string;
  cart_total : float;
  items : list LineItem.t
}.
End CheckoutData.

(** The [detail] member of the body of an error response, as the template
    literal of [handleCheckout] reads it: a string; a truthy value that is
    not a string (the list of validation errors of a 422, say), with the
    text [String(value)] it is interpolated as; or nothing truthy at all
    (no such member, [null], [0], [false]). *)
Inductive Detail :=
| DetailText (d : JS.string)
| DetailValue (shown : JS.string)
| DetailFalsy.

(** What the [try] block of [handleCheckout] can meet: a 2xx response with
    the order, another status with a JSON body and its [detail], or an
    exception (the promise of [fetch] rejects, or a body is not the JSON
    that is read from it). *)
Inductive Response :=
| ResOk (order : Order.t)
| ResError (detail : Detail)
| FetchThrows.

(** ** Component state

    One field per [useState] cell of [App]. *)

Record State := mkState {
  products : list Product.t;
  filteredProducts : list Product.t;
  cart : list CartEntry.t;
  showCart : bool;
  showCheckout : bool;
  selectedProduct : option Product.t;
  searchTerm : JS.string;
  selectedCategory : JS.string;
  address : JS.string;
  loading : bool;
  orders : list Order.t;
  showOrders : bool;
  currentImageIndex : JS.number;
  orderConfirmation : option Order.t
}.

(** [useState] initial values. *)
Definition initialState : State :=
  mkState [] [] [] false false None [] (JS.lit "All") [] true [] false (JS.Num 0) None.

(** The state setters. *)

Definition setProducts v st :=
  mkState v (filteredProducts st) (cart st) (showCart st) (showCheckout st)
    (selectedProduct st) (searchTerm st) (selectedCategory st) (address st)
    (loading st) (orders st) (showOrders st) (currentImageIndex st)
    (orderConfirmation st).

Definition setFilteredProducts v st :=
  mkState (products st) v (cart st) (showCart st) (showCheckout st)
    (selectedProduct st) (searchTerm st) (selectedCategory st) (address st)
    (loading st) (orders st) (showOrders st) (currentImageIndex st)
    (orderConfirmation st).

Definition setCart v st :=
  mkState (products st) (filteredProducts st) v (showCart st) (showCheckout st)
    (selectedProduct st) (searchTerm st) (selectedCategory st) (address st)
    (loading st) (orders st) (showOrders st) (currentImageIndex st)
    (orderConfirmation st).

Definition setShowCart v st :=
  mkState (products st) (filteredProducts st) (cart st) v (showCheckout st)
    (selectedProduct st) (searchTerm st) (selectedCategory st) (address st)
    (loading st) (orders st) (showOrders st) (currentImageIndex st)
    (orderConfirmation st).

Definition setShowCheckout v st :=
  mkState (products st) (filteredProducts st) (cart st) (showCart st) v
    (selectedProduct st) (searchTerm st) (selectedCategory st) (address st)
    (loading st) (orders st) (showOrders st) (currentImageIndex st)
    (orderConfirmation st).

Definition setSelectedProduct v st :=
  mkState (products st) (filteredProducts st) (cart st) (showCart st)
    (showCheckout st) v (searchTerm st) (selectedCategory st) (address st)
    (loading st) (orders st) (showOrders st) (currentImageIndex st)
    (orderConfirmation st).

Definition setSearchTerm v st :=
  mkState (products st) (filteredProducts st) (cart st) (showCart st)
    (showCheckout st) (selectedProduct st) v (selectedCategory st) (address st)
    (loading st) (orders st) (showOrders st) (currentImageIndex st)
    (orderConfirmation st).

Definition setSelectedCategory v st :=
  mkState (products st) (filteredProducts st) (cart st) (showCart st)
    (showCheckout st) (selectedProduct st) (searchTerm st) v (address st)
    (loading st) (orders st) (showOrders st) (currentImageIndex st)
    (orderConfirmation st).

Definition setAddress v st :=
  mkState (products st) (filteredProducts st) (cart st) (showCart st)
    (showCheckout st) (selectedProduct st) (searchTerm st) (selectedCategory st)
    v (loading st) (orders st) (showOrders st) (currentImageIndex st)
    (orderConfirmation st).

Definition setLoading v st :=
  mkState (products st) (filteredProducts st) (cart st) (showCart st)
    (showCheckout st) (selectedProduct st) (searchTerm st) (selectedCategory st)
    (address st) v (orders st) (showOrders st) (currentImageIndex st)
    (orderConfirmation st).

Definition setOrders v st :=
  mkState (products st) (filteredProducts st) (cart st) (showCart st)
    (showCheckout st) (selectedProduct st) (searchTerm st) (selectedCategory st)
    (address st) (loading st) v (showOrders st) (currentImageIndex st)
    (orderConfirmation st).

Definition setShowOrders v st :=
  mkState (products st) (filteredProducts st) (cart st) (showCart st)
    (showCheckout st) (selectedProduct st) (searchTerm st) (selectedCategory st)
    (address st) (loading st) (orders st) v (currentImageIndex st)
    (orderConfirmation st).

(** [setCurrentImageIndex] is called both with a value and with an updater
    function of the previous value; the updater form subsumes the other. *)
Definition setCurrentImageIndex (f : JS.number -> JS.number) st :=
  mkState (products st) (filteredProducts st) (cart st) (showCart st)
    (showCheckout st) (selectedProduct st) (searchTerm st) (selectedCategory st)
    (address st) (loading st) (orders st) (showOrders st)
    (f (currentImageIndex st)) (orderConfirmation st).

Definition setOrderConfirmation v st :=
  mkState (products st) (filteredProducts st) (cart st) (showCart st)
    (showCheckout st) (selectedProduct st) (searchTerm st) (selectedCategory st)
    (address st) (loading st) (orders st) (showOrders st) (currentImageIndex st)
    v.

(** [st |> setA a |> setB b] reads as the statement sequence
    [setA(a); setB(b);] of a handler. *)
Notation "st |> f" := (f st) (at level 45, left associativity, only parsing).

(** ** Derived values and effects *)

(** The body of the search-and-filter effect: the value handed to
    [setFilteredProducts]. *)
Definition searchFilter {platform : JS.Platform} (products : list Product.t)
    (selectedCategory searchTerm : JS.string) : list Product.t :=
  let results := products in
  let results :=
    if negb (JS.eqb selectedCategory (JS.lit "All"))
    then filter (fun p => JS.eqb (Product.category p) selectedCategory) results
    else results in
  let results :=
    if JS.truthy (JS.trim searchTerm)
    then filter (fun p =>
           JS.includes (JS.toLowerCase (Product.name p)) (JS.toLowerCase searchTerm))
           results
    else results in
  results.

(** The effect itself; React runs it after every commit in which
    [searchTerm], [selectedCategory] or [products] changed, and running it
    when none changed stores the same list again. *)
Definition filterEffect {platform : JS.Platform} (st : State) : State :=
  st |> setFilteredProducts
          (searchFilter (products st) (selectedCategory st) (searchTerm st)).

(** [[...new Set(xs)]]: first occurrences, in order. *)
Fixpoint distinct (seen xs : list JS.string) : list JS.string :=
  match xs with
  | [] => []
  | x :: xs' =>
      if existsb (JS.eqb x) seen then distinct seen xs'
      else x :: distinct (x :: seen) xs'
  end.

Definition categories (st : State) : list JS.string :=
  (JS.lit "All") :: distinct [] (map Product.category (products st)).

Definition getProductImages (product : Product.t) : list JS.string :=
  let images : list JS.string := [] in
  let images :=
    match Product.image_url product with
    | Some u => if JS.truthy u then (images ++ [u])%list else images
    | None => images
    end in
  let images :=
    match Product.image_url2 product with
    | Some u => if JS.truthy u then (images ++ [u])%list else images
    | None => images
    end in
  let images :=
    match Product.image_url3 product with
    | Some u => if JS.truthy u then (images ++ [u])%list else images
    | None => images
    end in
  images.

(** [cart.reduce((sum, item) => sum + (item.price * item.quantity), 0)] *)
Definition cartTotal (cart : list CartEntry.t) : float :=
  fold_left
    (fun sum item =>
       (sum + CartEntry.price item * JS.ofZ (CartEntry.quantity item))%float)
    cart 0%float.

(** ** Cart handlers *)

(** The entry appended for a product not yet in the cart; [rnd] is the
    value drawn by [Math.random()]. *)
Definition newEntry (rnd : N) (product : Product.t) : CartEntry.t :=
  CartEntry.mk rnd (Product.id product) (Product.name product)
    (Product.price product) (Product.image_url product) 1.

(** [addToCart]: the new state and the text passed to [alert]. *)
Definition addToCart (rnd : N) (product : Product.t) (st : State)
    : State * list JS.string :=
  let existingItem :=
    find (fun item => CartEntry.product_id item =? Product.id product) (cart st) in
  let st' :=
    match existingItem with
    | Some _ =>
        st |> setCart
                (map (fun item =>
                        if CartEntry.product_id item =? Product.id product
                        then CartEntry.with_quantity (CartEntry.quantity item + 1) item
                        else item)
                     (cart st))
    | None => st |> setCart (cart st ++ [newEntry rnd product])%list
    end in
  (st', [(9989%N :: JS.lit " ") ++ Product.name product ++ (JS.lit " added to cart!")]).

(** [buyNow]: the same cart update, no alert, then the four setters. *)
Definition buyNow (rnd : N) (product : Product.t) (st : State) : State :=
  let existingItem :=
    find (fun item => CartEntry.product_id item =? Product.id product) (cart st) in
  let st' :=
    match existingItem with
    | Some _ =>
        st |> setCart
                (map (fun item =>
                        if CartEntry.product_id item =? Product.id product
                        then CartEntry.with_quantity (CartEntry.quantity item + 1) item
                        else item)
                     (cart st))
    | None => st |> setCart (cart st ++ [newEntry rnd product])%list
    end in
  st' |> setShowCart false |> setShowCheckout true |> setShowOrders false
      |> setSelectedProduct None.

Definition removeFromCart (id : N) (st : State) : State :=
  st |> setCart (filter (fun item => negb (CartEntry.id item =? id)%N) (cart st)).

Definition updateQuantity (id : N) (quantity : Z) (st : State) : State :=
  if quantity <=? 0 then removeFromCart id st
  else
    st |> setCart
            (map (fun item =>
                    if (CartEntry.id item =? id)%N
                    then CartEntry.with_quantity quantity item
                    else item)
                 (cart st)).

(** [CartItem.jsx]: the three quantity controls and the remove button of
    the entry [item], wired to [updateQuantity] and [removeFromCart]. *)
Module CartItem.
Definition onMinus (item : CartEntry.t) : State -> State :=
  updateQuantity (CartEntry.id item) (CartEntry.quantity item - 1).

(** [onChange] of the number input; [value] is [e.target.value]. *)
Definition onChange (item : CartEntry.t) (value : JS.string) : State -> State :=
  updateQuantity (CartEntry.id item) (JS.orElse (JS.parseInt value) 1).

Definition onPlus (item : CartEntry.t) : State -> State :=
  updateQuantity (CartEntry.id item) (CartEntry.quantity item + 1).

Definition onRemove (item : CartEntry.t) : State -> State :=
  removeFromCart (CartEntry.id item).
End CartItem.

(** ** Checkout *)

Definition checkoutData (st : State) : CheckoutData.t :=
  CheckoutData.mk (address st) (cartTotal (cart st))
    (map (fun item =>
            LineItem.mk (CartEntry.product_id item) (CartEntry.name item)
              (CartEntry.price item) (CartEntry.quantity item))
         (cart st)).

(** The part of [handleCheckout] that follows [await fetch(...)]: the
    statement on [response.ok] and the [catch] clause.  It runs when the
    promise settles, on the state [cur] the component has by then, with the
    variables of the render [st] whose handler was called: [orders] in
    [[...orders, order]] is the list of [st].  The result is the new state
    and the texts passed to [alert]. *)
Definition afterFetch (st : State) (response : Response) (cur : State)
    : State * list JS.string :=
  match response with
  | ResOk order =>
      (cur |> setOrders (orders st ++ [order])%list
           |> setOrderConfirmation (Some order)
           |> setCart []
           |> setAddress []
           |> setShowCheckout false
           |> setShowCart false,
       [])
  | ResError detail =>
      (cur,
       [(JS.lit "Checkout failed: ") ++
        match detail with
        | DetailText d => if JS.truthy d then d else JS.lit "Unknown error"
        | DetailValue shown => shown
        | DetailFalsy => JS.lit "Unknown error"
        end])
  | FetchThrows =>
      (cur,
       [JS.lit
          "Error during checkout. Make sure backend is running on http://localhost:8000"])
  end.

(** [handleCheckout] from the click to the end, when nothing else is
    handled while the request is under way.  [fetch] is the POST to
    [/api/checkout] seen from the client: it takes the request body and the
    backend it reaches, and gives the response and the backend afterwards.
    The result is the new client state, the texts passed to [alert], and
    the backend. *)
Definition handleCheckout {Backend : Type}
    (fetch : CheckoutData.t -> Backend -> Response * Backend)
    (st : State) (backend : Backend) : State * list JS.string * Backend :=
  if negb (JS.truthy (JS.trim (address st)))
  then (st, [JS.lit "Please enter shipping address"], backend)
  else
    let '(response, backend') := fetch (checkoutData st) backend in
    let '(st', alerts) := afterFetch st response st in
    (st', alerts, backend').

(** ** Carousel *)

Definition nextImage (st : State) : State :=
  match selectedProduct st with
  | Some product =>
      let images := getProductImages product in
      st |> setCurrentImageIndex
              (fun prev => JS.rem (JS.add prev 1) (Z.of_nat (List.length images)))
  | None => st
  end.

Definition prevImage (st : State) : State :=
  match selectedProduct st with
  | Some product =>
      let images := getProductImages product in
      st |> setCurrentImageIndex
              (fun prev =>
                 JS.rem (JS.add (JS.add prev (-1)) (Z.of_nat (List.length images)))
                        (Z.of_nat (List.length images)))
  | None => st
  end.

(** ** Header handlers and the inline handlers of the panels *)

Definition handleHomeClick (st : State) : State :=
  st |> setShowOrders false |> setShowCart false |> setShowCheckout false
     |> setSelectedProduct None |> setOrderConfirmation None.

Definition handleOrdersClick (st : State) : State :=
  st |> setShowOrders (negb (showOrders st)) |> setShowCart false
     |> setShowCheckout false |> setSelectedProduct None
     |> setOrderConfirmation None.

Definition handleCartClick (st : State) : State :=
  st |> setShowCart (negb (showCart st)) |> setShowCheckout false
     |> setShowOrders false |> setSelectedProduct None
     |> setOrderConfirmation None.

(** "Continue Shopping" on the confirmation panel. *)
Definition onContinueShopping (st : State) : State :=
  st |> setOrderConfirmation None |> setShowCart false |> setShowCheckout false
     |> setShowOrders false |> setSelectedProduct None.

(** "Proceed to Checkout" in the cart summary. *)
Definition onProceedToCheckout (st : State) : State :=
  st |> setShowCheckout true |> setShowCart false.

(** [onViewDetails] handed to a [ProductCard]. *)
Definition onViewDetails (product : Product.t) (st : State) : State :=
  st |> setSelectedProduct (Some product)
     |> setCurrentImageIndex (fun _ => JS.Num 0).

(** The back buttons of the product detail and of the checkout form. *)
Definition onBackFromDetail (st : State) : State :=
  st |> setSelectedProduct None.

Definition onBackFromCheckout (st : State) : State :=
  st |> setShowCheckout false.

(** A carousel indicator. *)
Definition onIndicator (idx : nat) (st : State) : State :=
  st |> setCurrentImageIndex (fun _ => JS.Num (Z.of_nat idx)).

(** ** Rendering: which panel [<main>] shows *)

Inductive Panel :=
| Confirmation | Orders | ProductDetail | Cart | Checkout | Catalog.

(** The chain of conditionals of the JSX. *)
Definition panel (st : State) : Panel :=
  match orderConfirmation st with
  | Some _ => Confirmation
  | None =>
      if showOrders st then Orders
      else
        match selectedProduct st with
        | Some _ => ProductDetail
        | None =>
            if showCart st then Cart
            else if showCheckout st then Checkout
            else Catalog
        end
  end.

(** [App] renders the loading notice alone while [loading] holds. *)
Definition render (st : State) : option Panel :=
  if loading st then None else Some (panel st).

(** The number of panel indicators that are active (truthy). *)
Definition activeIndicators (st : State) : nat :=
  ((if showCart st then 1 else 0)
   + (if showCheckout st then 1 else 0)
   + (if showOrders st then 1 else 0)
   + (match selectedProduct st with Some _ => 1 | None => 0 end)
   + (match orderConfirmation st with Some _ => 1 | None => 0 end))%nat.

(** ** The order service

    [backend/main.py] is not part of the sources; the service is taken
    from its specification and from [schema.sql]. *)

Module Server.

(** A row of [order_items]. *)
Module OrderItem.
Record t := mk {
  id : Z;
  order_id : Z;
  product_id : Z;
  quantity : Z;
  price : float
}.
End OrderItem.

(** The three tables; [orders] rows have the shape of [Order.t]. *)
Record Store := mkStore {
  products : list Product.t;
  orders : list Order.t;
  order_items : list OrderItem.t
}.

(** Modelled from the spec: the total the service computes for an order,
    "total = Σ(item.price × item.quantity) from the submitted line items"
    ([checkout] of [main.py] is missing); the items are added up in the
    order submitted. *)
Definition orderTotal (items : list LineItem.t) : float :=
  fold_left
    (fun total item =>
       (total + LineItem.price item * JS.ofZ (LineItem.quantity item))%float)
    items 0%float.

(** Modelled from the spec: the identifier an [AUTO_INCREMENT] key
    assigns, one more than the largest present (the key generation of the
    missing [main.py] and its database). *)
Definition nextId (ids : list Z) : Z := 1 + fold_right Z.max 0 ids.

(** Modelled from the spec: "inserts one OrderItem row per submitted
    item" (the insertion loop of the missing [checkout]). *)
Fixpoint insertItems (order_id : Z) (items : list LineItem.t)
    (rows : list OrderItem.t) : list OrderItem.t :=
  match items with
  | [] => rows
  | item :: items' =>
      insertItems order_id items'
        (rows ++ [OrderItem.mk (nextId (map OrderItem.id rows)) order_id
                    (LineItem.product_id item) (LineItem.quantity item)
                    (LineItem.price item)])
  end.

(** Modelled from the spec: [checkout(shippingAddress, items[])] of the
    missing [main.py]: "Signals a validation error if address is empty or
    items is empty"; otherwise "inserts one Order row with the recomputed
    total and the given address and default status; inserts one OrderItem
    row per submitted item; returns the persisted Order (with assigned
    identifier and timestamp)".  [now] is the timestamp the store
    assigns. *)
Definition checkout (now : JS.string) (req : CheckoutData.t) (db : Store)
    : Response * Store :=
  if negb (JS.truthy (CheckoutData.shipping_address req))
  then (ResError (DetailText (JS.lit "Shipping address is required")), db)
  else
    match CheckoutData.items req with
    | [] => (ResError (DetailText (JS.lit "Cart is empty")), db)
    | _ :: _ =>
        let order :=
          Order.mk (nextId (map Order.id (orders db)))
            (orderTotal (CheckoutData.items req))
            (CheckoutData.shipping_address req) (JS.lit "confirmed") now in
        (ResOk order,
         mkStore (products db) (orders db ++ [order])
           (insertItems (Order.id order) (CheckoutData.items req)
              (order_items db)))
    end.

(** Modelled from the spec: [listProducts()] "returns all products,
    unfiltered, unpaginated" (missing [main.py]). *)
Definition listProducts (db : Store) : list Product.t := products db.

End Server.

(** The POST of [handleCheckout] against the service: [Some now] when the
    request reaches it at time [now], [None] when [fetch] rejects. *)
Definition fetchCheckout (net : option JS.string) (req : CheckoutData.t)
    (db : Server.Store) : Response * Server.Store :=
  match net with
  | Some now => Server.checkout now req db
  | None => (FetchThrows, db)
  end.

(** ** The client as a transition system

    A world is the component state and the store behind the service.  An
    event is enabled only where the JSX renders (and enables) its control. *)

Definition World : Type := State * Server.Store.

Inductive Event :=
| ProductsFetched
| ProductsFetchFailed
| HomeClick
| OrdersClick
| CartClick
| ContinueShopping
| SearchInput (text : JS.string)
| CategoryClick (cat : JS.string)
| CardAddToCart (i : nat) (rnd : N)
| CardViewDetails (i : nat)
| DetailBack
| DetailPrev
| DetailNext
| DetailIndicator (idx : nat)
| DetailAddToCart (rnd : N)
| DetailBuyNow (rnd : N)
| CartMinus (i : nat)
| CartInput (i : nat) (value : JS.string)
| CartPlus (i : nat)
| CartRemove (i : nat)
| ProceedToCheckout
| AddressInput (text : JS.string)
| PlaceOrder (net : option JS.string)
| CheckoutBack.

Definition guard {A : Type} (b : bool) (x : A) : option A :=
  if b then Some x else None.

(** The handler an event runs, where it is enabled. *)
Definition handle (e : Event) (w : World) : option World :=
  let '(st, db) := w in
  match e, render st with
  | ProductsFetched, None =>
      let data := Server.listProducts db in
      Some (st |> setProducts data |> setFilteredProducts data
               |> setLoading false, db)
  | ProductsFetchFailed, None => Some (st |> setLoading false, db)
  | HomeClick, Some _ => Some (handleHomeClick st, db)
  | OrdersClick, Some _ => Some (handleOrdersClick st, db)
  | CartClick, Some _ => Some (handleCartClick st, db)
  | ContinueShopping, Some Confirmation => Some (onContinueShopping st, db)
  | SearchInput text, Some Catalog => Some (st |> setSearchTerm text, db)
  | CategoryClick cat, Some Catalog =>
      guard (existsb (JS.eqb cat) (categories st))
            (st |> setSelectedCategory cat, db)
  | CardAddToCart i rnd, Some Catalog =>
      match nth_error (filteredProducts st) i with
      | Some product =>
          guard (negb (Product.stock product =? 0))
                (fst (addToCart rnd product st), db)
      | None => None
      end
  | CardViewDetails i, Some Catalog =>
      match nth_error (filteredProducts st) i with
      | Some product => Some (onViewDetails product st, db)
      | None => None
      end
  | DetailBack, Some ProductDetail => Some (onBackFromDetail st, db)
  | DetailPrev, Some ProductDetail =>
      match selectedProduct st with
      | Some product =>
          guard (1 <? List.length (getProductImages product))%nat
                (prevImage st, db)
      | None => None
      end
  | DetailNext, Some ProductDetail =>
      match selectedProduct st with
      | Some product =>
          guard (1 <? List.length (getProductImages product))%nat
                (nextImage st, db)
      | None => None
      end
  | DetailIndicator idx, Some ProductDetail =>
      match selectedProduct st with
      | Some product =>
          guard ((1 <? List.length (getProductImages product))
                 && (idx <? List.length (getProductImages product)))%nat
                (onIndicator idx st, db)
      | None => None
      end
  | DetailAddToCart rnd, Some ProductDetail =>
      match selectedProduct st with
      | Some product =>
          guard (negb (Product.stock product =? 0))
                (fst (addToCart rnd product st), db)
      | None => None
      end
  | DetailBuyNow rnd, Some ProductDetail =>
      match selectedProduct st with
      | Some product =>
          guard (negb (Product.stock product =? 0)) (buyNow rnd product st, db)
      | None => None
      end
  | CartMinus i, Some Cart =>
      option_map (fun item => (CartItem.onMinus item st, db))
                 (nth_error (cart st) i)
  | CartInput i value, Some Cart =>
      option_map (fun item => (CartItem.onChange item value st, db))
                 (nth_error (cart st) i)
  | CartPlus i, Some Cart =>
      option_map (fun item => (CartItem.onPlus item st, db))
                 (nth_error (cart st) i)
  | CartRemove i, Some Cart =>
      option_map (fun item => (CartItem.onRemove item st, db))
                 (nth_error (cart st) i)
  | ProceedToCheckout, Some Cart =>
      guard (negb (List.length (cart st) =? 0)%nat) (onProceedToCheckout st, db)
  | AddressInput text, Some Checkout => Some (st |> setAddress text, db)
  | PlaceOrder net, Some Checkout =>
      let '(st', _, db') := handleCheckout (fetchCheckout net) st db in
      Some (st', db')
  | CheckoutBack, Some Checkout => Some (onBackFromCheckout st, db)
  | _, _ => None
  end.

Section Transitions.
Context {platform : JS.Platform}.

(** One transition: the handler, then the effects of the commit. *)
Definition step (e : Event) (w : World) : option World :=
  option_map (fun w' => (filterEffect (fst w'), snd w')) (handle e w).

Inductive reachable : World -> Prop :=
| reachable_init (db : Server.Store) : reachable (initialState, db)
| reachable_step (w w' : World) (e : Event) :
    reachable w -> step e w = Some w' -> reachable w'.

(** ** Requests in flight

    [handleCheckout] is an [async] function: it returns at [await], the
    page stays live, and [afterFetch] runs when the response is there.  A
    browser is a world together with the checkout requests under way. *)

(** Where a request stands: sent (with what the network will do to it), or
    answered by the service and on its way back. *)
Inductive Stage :=
| Sent (net : option JS.string)
| Answered (response : Response).

(** A request under way: the state of the render whose [handleCheckout] was
    called, and the stage. *)
Definition Flight : Type := State * Stage.

Definition Browser : Type := World * list Flight.

Inductive Action :=
| Ui (e : Event)
| Serve (k : nat)
| Settle (k : nat).

Fixpoint replaceNth {A : Type} (k : nat) (x : A) (l : list A) : list A :=
  match l, k with
  | [], _ => []
  | _ :: l', O => x :: l'
  | y :: l', S k' => y :: replaceNth k' x l'
  end.

Fixpoint removeNth {A : Type} (k : nat) (l : list A) : list A :=
  match l, k with
  | [], _ => []
  | _ :: l', O => l'
  | y :: l', S k' => y :: removeNth k' l'
  end.

(** One action of the browser.
    - [Ui (PlaceOrder net)]: the part of [handleCheckout] before [await];
      a blank address is alerted, otherwise the request leaves, together
      with the state [st] the handler closes over.  No setter is called.
    - [Ui e], any other event: as in [step].
    - [Serve k]: the [k]-th request reaches the service (or fails to).
    - [Settle k]: the response of the [k]-th request is handled by
      [afterFetch], on the state the component has now. *)
Definition act (a : Action) (b : Browser) : option Browser :=
  let '((st, db), flights) := b in
  match a with
  | Ui (PlaceOrder net) =>
      match render st with
      | Some Checkout =>
          if negb (JS.truthy (JS.trim (address st)))
          then Some ((filterEffect st, db), flights)
          else Some ((filterEffect st, db), (flights ++ [(st, Sent net)])%list)
      | _ => None
      end
  | Ui e => option_map (fun w' => (w', flights)) (step e (st, db))
  | Serve k =>
      match nth_error flights k with
      | Some (st0, Sent net) =>
          let '(response, db') := fetchCheckout net (checkoutData st0) db in
          Some ((st, db'), replaceNth k (st0, Answered response) flights)
      | _ => None
      end
  | Settle k =>
      match nth_error flights k with
      | Some (st0, Answered response) =>
          Some ((filterEffect (fst (afterFetch st0 response st)), db),
                removeNth k flights)
      | _ => None
      end
  end.

Fixpoint play (acts : list Action) (b : Browser) : option Browser :=
  match acts with
  | [] => Some b
  | a :: acts' =>
      match act a b with
      | Some b' => play acts' b'
      | None => None
      end
  end.

(** The actions that make up one event when nothing comes in between. *)
Definition unhurried (e : Event) (st : State) : list Action :=
  match e with
  | PlaceOrder _ =>
      if negb (JS.truthy (JS.trim (address st))) then [Ui e]
      else [Ui e; Serve 0; Settle 0]
  | _ => [Ui e]
  end.

Inductive reachableBrowser : Browser -> Prop :=
| browser_init (db : Server.Store) : reachableBrowser ((initialState, db), [])
| browser_act (b b' : Browser) (a : Action) :
    reachableBrowser b -> act a b = Some b' -> reachableBrowser b'.

End Transitions.

(** ** Notions used to state the properties *)

(** What holds of the indicators under any interleaving: at most one of
    the four other than [orderConfirmation] is active, and an active
    [orderConfirmation] goes with neither [showCart] nor [showCheckout]. *)
Definition looselyExclusive (st : State) : Prop :=
  ((if showCart st then 1 else 0)
   + (if showCheckout st then 1 else 0)
   + (if showOrders st then 1 else 0)
   + (match selectedProduct st with Some _ => 1 | None => 0 end) <= 1)%nat
  /\ ((match orderConfirmation st with Some _ => 1 | None => 0 end)
      + (if showCart st then 1 else 0)
      + (if showCheckout st then 1 else 0) <= 1)%nat.

(** The entries of a cart that stand for the product [pid]. *)
Definition entriesFor (pid : Z) (cart : list CartEntry.t) : list CartEntry.t :=
  filter (fun item => CartEntry.product_id item =? pid) cart.

(** The sum of [price * quantity] over line items, as a sum of JS numbers
    taken in the order of the items: the sum of the first [n] lines is 0
    for [n = 0], and otherwise the sum of the first [n - 1] lines plus the
    [n]-th line. *)
Definition lineAmount (item : LineItem.t) : float :=
  (LineItem.price item * JS.ofZ (LineItem.quantity item))%float.

Fixpoint partialSum (items : list LineItem.t) (n : nat) : float :=
  match n with
  | O => 0%float
  | S k =>
      (partialSum items k
       + match nth_error items k with
         | Some item => lineAmount item
         | None => 0
         end)%float
  end.

Definition sumOfLines (items : list LineItem.t) : float :=
  partialSum items (List.length items).

(** The line item a cart entry is submitted as. *)
Definition lineOf (item : CartEntry.t) : LineItem.t :=
  LineItem.mk (CartEntry.product_id item) (CartEntry.name item)
    (CartEntry.price item) (CartEntry.quantity item).

(** The code points that count as white space in ECMAScript (WhiteSpace and
    LineTerminator), one by one. *)
Definition whiteSpaceCodes : list N :=
  [9; 10; 11; 12; 13; 32; 160; 5760;
   8192; 8193; 8194; 8195; 8196; 8197; 8198; 8199; 8200; 8201; 8202;
   8232; 8233; 8239; 8287; 12288; 65279]%N.

(** A blank string: nothing but white space. *)
Definition blank (s : JS.string) : Prop :=
  Forall (fun c => In c whiteSpaceCodes) s.

(** The letters of the ASCII alphabet, in their two cases. *)
Definition upperLetters : JS.string := JS.lit "ABCDEFGHIJKLMNOPQRSTUVWXYZ".
Definition lowerLetters : JS.string := JS.lit "abcdefghijklmnopqrstuvwxyz".

(** Two code units that are equal, or one letter in its two cases. *)
Definition sameIgnoringCase (c d : N) : Prop :=
  c = d
  \/ In (c, d) (combine upperLetters lowerLetters)
  \/ In (d, c) (combine upperLetters lowerLetters).

(** Two strings that differ at most in the case of their letters. *)
Definition equalIgnoringCase (a b : JS.string) : Prop :=
  Forall2 sameIgnoringCase a b.


(** Running a sequence of events. *)
Fixpoint run {platform : JS.Platform} (es : list Event) (w : World)
    : option World :=
  match es with
  | [] => Some w
  | e :: es' =>
      match step e w with
      | Some w' => run es' w'
      | None => None
      end
  end.

(** Sample data: a catalog, a checkout, and an engine whose
    [toLowerCase] knows the ASCII letters only (enough for the samples,
    whose strings are ASCII). *)
Module Sample.
#[local] Instance platform : JS.Platform :=
  {| JS.toLowerCase := map JS.lowerAscii;
     JS.toLowerCase_ascii := fun s _ => eq_refl |}.

Definition redShirt : Product.t :=
  Product.mk 1 (JS.lit "Red Shirt") 19.99%float (JS.lit "Apparel") None
    (Some (JS.lit "/img/shirt-1.jpg")) (Some (JS.lit "/img/shirt-2.jpg"))
        (Some (JS.lit "/img/shirt-3.jpg"))
    5 (JS.lit "2026-01-01T00:00:00").

Definition mug : Product.t :=
  Product.mk 2 (JS.lit "Coffee Mug") 7.5%float (JS.lit "Kitchen") None
      (Some (JS.lit "/img/mug.jpg")) None None
    0 (JS.lit "2026-01-01T00:00:00").

Definition lamp : Product.t :=
  Product.mk 3 (JS.lit "Desk Lamp") 34.25%float (JS.lit "Home") (Some (JS.lit "A lamp"))
      (Some (JS.lit "/img/lamp.jpg"))
    None None 3 (JS.lit "2026-01-01T00:00:00").

Definition db : Server.Store := Server.mkStore [redShirt; mug; lamp] [] [].

(** The shirt twice in the cart, an address typed in. *)
Definition atCheckout : State :=
  initialState
    |> setProducts [redShirt; mug; lamp]
    |> setFilteredProducts [redShirt; mug; lamp]
    |> setLoading false
    |> setCart [CartEntry.mk 5 1 (JS.lit "Red Shirt") 19.99%float
        (Some (JS.lit "/img/shirt-1.jpg")) 2]
    |> setShowCheckout true
    |> setAddress (JS.lit "221B Baker St").
End Sample.

(** A session up to the checkout form: the catalog loads, the first
    product is opened and bought at once, and an address is typed. *)
Definition session : list Event :=
  [ProductsFetched; CardViewDetails 0; DetailBuyNow 5;
   AddressInput (JS.lit "221B Baker St")].

(** The worlds before and after placing the order of the session. *)
Definition checkoutWorld : World :=
  Eval vm_compute in
    match run (platform := Sample.platform) session (initialState, Sample.db) with
    | Some w => w
    | None => (initialState, Sample.db)
    end.

Definition placedWorld : World :=
  Eval vm_compute in
    match step (platform := Sample.platform)
            (PlaceOrder (Some (JS.lit "2026-11-03T10:00:00"))) checkoutWorld with
    | Some w => w
    | None => checkoutWorld
    end.

(** Two products added to the cart with [Math.random()] giving the same
    value both times, and the cart opened. *)
Definition sharedDraw : list Event :=
  [ProductsFetched; CardAddToCart 0 5; CardAddToCart 2 5; CartClick].

(** Place Order clicked twice before the first response is back. *)
Definition doubleSubmit : list Action :=
  (map Ui session
   ++ [Ui (PlaceOrder (Some (JS.lit "2026-11-03T10:00:00")));
       Ui (PlaceOrder (Some (JS.lit "2026-11-03T10:00:01")));
       Serve 0; Serve 1; Settle 0; Settle 0])%list.

(** The Orders button clicked while the response is on its way. *)
Definition lateResponse : list Action :=
  (map Ui session
   ++ [Ui (PlaceOrder (Some (JS.lit "2026-11-03T10:00:00"))); Serve 0;
       Ui OrdersClick; Settle 0])%list.

(** ** Further parts of the views *)

(** [ProductCard.jsx]: the stock badge and the [disabled] attribute of the
    Add to Cart button. *)
Module ProductCard.
Definition stockBadge (product : Product.t) : JS.string :=
  if 0 <? Product.stock product then 9989%N :: JS.lit " In Stock"
  else 10060%N :: JS.lit " Out".

Definition addDisabled (product : Product.t) : bool :=
  Product.stock product =? 0.
End ProductCard.

(** [Header.jsx]: the two counters, as [App] passes them. *)
Module Header.
Definition cartCount (st : State) : nat := List.length (cart st).
Definition ordersCount (st : State) : nat := List.length (orders st).
End Header.

(** The [src] of the carousel image:
    [getProductImages(selectedProduct)[currentImageIndex] || selectedProduct.image_url];
    [None] stands for [null]. *)
Definition carouselSrc (product : Product.t) (idx : JS.number) : option JS.string :=
  let indexed :=
    match idx with
    | JS.Num i =>
        if i <? 0 then None
        else nth_error (getProductImages product) (Z.to_nat i)
    | JS.NaN => None
    end in
  match indexed with
  | Some u => if JS.truthy u then Some u else Product.image_url product
  | None => Product.image_url product
  end.

(** ** Notions used to state further properties *)

(** A cart entry that is the projection of the catalog product [p]. *)
Definition mirrors (p : Product.t) (item : CartEntry.t) : Prop :=
  CartEntry.product_id item = Product.id p
  /\ CartEntry.name item = Product.name p
  /\ CartEntry.price item = Product.price p
  /\ CartEntry.image_url item = Product.image_url p.

(** The decimal numeral with the digits [ds], and its value. *)
Definition digitChar (d : nat) : N := (48 + N.of_nat d)%N.

Definition numeral (ds : list nat) : JS.string := map digitChar ds.

Definition valueOf (ds : list nat) : Z :=
  fold_left (fun acc d => 10 * acc + Z.of_nat d) ds 0.

(** The events that browse: they neither edit the cart nor place an
    order nor load the catalog. *)
Definition browses (e : Event) : bool :=
  match e with
  | HomeClick | OrdersClick | CartClick | ContinueShopping
  | SearchInput _ | CategoryClick _ | CardViewDetails _
  | DetailBack | DetailPrev | DetailNext | DetailIndicator _
  | ProceedToCheckout | AddressInput _ | CheckoutBack => true
  | _ => false
  end.

(** What one enabled event can do to the component state, handler by
    handler, with what the JSX guarantees where the control is rendered.
    [moved_settled] is [afterFetch], run for any request and response. *)
Inductive moves (st : State) : State -> Prop :=
| moved_fetched (data : list Product.t) :
    loading st = true ->
    moves st (st |> setProducts data |> setFilteredProducts data
                 |> setLoading false)
| moved_fetch_failed : moves st (st |> setLoading false)
| moved_home : moves st (handleHomeClick st)
| moved_orders : moves st (handleOrdersClick st)
| moved_cart : moves st (handleCartClick st)
| moved_continue : moves st (onContinueShopping st)
| moved_search (text : JS.string) : moves st (st |> setSearchTerm text)
| moved_category (cat : JS.string) : moves st (st |> setSelectedCategory cat)
| moved_add (rnd : N) (p : Product.t) :
    In p (filteredProducts st) \/ selectedProduct st = Some p ->
    Product.stock p <> 0 ->
    moves st (fst (addToCart rnd p st))
| moved_view (p : Product.t) :
    In p (filteredProducts st) -> moves st (onViewDetails p st)
| moved_back_detail : moves st (onBackFromDetail st)
| moved_prev (p : Product.t) :
    selectedProduct st = Some p ->
    (1 < List.length (getProductImages p))%nat ->
    moves st (prevImage st)
| moved_next (p : Product.t) :
    selectedProduct st = Some p ->
    (1 < List.length (getProductImages p))%nat ->
    moves st (nextImage st)
| moved_indicator (p : Product.t) (idx : nat) :
    selectedProduct st = Some p ->
    (idx < List.length (getProductImages p))%nat ->
    moves st (onIndicator idx st)
| moved_buy (rnd : N) (p : Product.t) :
    selectedProduct st = Some p ->
    Product.stock p <> 0 ->
    moves st (buyNow rnd p st)
| moved_update (id : N) (q : Z) :
    panel st = Cart -> moves st (updateQuantity id q st)
| moved_proceed :
    cart st <> [] -> moves st (onProceedToCheckout st)
| moved_address (text : JS.string) : moves st (st |> setAddress text)
| moved_settled (st0 : State) (response : Response) :
    moves st (fst (afterFetch st0 response st))
| moved_back_checkout : moves st (onBackFromCheckout st).

(** A cart over the catalog [ps]: every quantity is at least 1, every
    entry is the projection of a product of [ps] whose stock is not 0, and
    no two entries stand for the same product id. *)
Definition cartOK (ps : list Product.t) (c : list CartEntry.t) : Prop :=
  Forall (fun item =>
            1 <= CartEntry.quantity item
            /\ exists p, In p ps /\ mirrors p item /\ Product.stock p <> 0) c
  /\ NoDup (map CartEntry.product_id c).

(** The carousel index points into the images of the selected product (at
    0 when there are none). *)
Definition indexOK (st : State) : Prop :=
  exists i : Z,
    currentImageIndex st = JS.Num i
    /\ 0 <= i
    /\ forall p, selectedProduct st = Some p ->
                 i < Z.max 1 (Z.of_nat (List.length (getProductImages p))).

(** What holds of the component state in every reachable browser. *)
Definition stateOK (st : State) : Prop :=
  (loading st = true ->
     cart st = [] /\ selectedProduct st = None /\ showCheckout st = false)
  /\ incl (filteredProducts st) (products st)
  /\ cartOK (products st) (cart st)
  /\ (forall p, selectedProduct st = Some p -> In p (products st))
  /\ (showCheckout st = true -> cart st <> [])
  /\ indexOK st.

(** A request under way was sent from a state with a non-blank address
    and a cart that is not empty and has quantities of at least 1. *)
Definition flightOK (f : Flight) : Prop :=
  JS.truthy (JS.trim (address (fst f))) = true
  /\ cart (fst f) <> []
  /\ Forall (fun item => 1 <= CartEntry.quantity item) (cart (fst f)).

Definition browserOK {platform : JS.Platform} (b : Browser) : Prop :=
  let st := fst (fst b) in
  looselyExclusive st
  /\ stateOK st
  /\ filteredProducts st
     = searchFilter (products st) (selectedCategory st) (searchTerm st)
  /\ (loading st = true -> snd b = [])
  /\ Forall flightOK (snd b).

(** The browser after the catalog has loaded, the first product was
    opened and the carousel moved on by one. *)
Definition viewingActs : list Action :=
  [Ui ProductsFetched; Ui (CardViewDetails 0); Ui DetailNext].

Definition viewing : Browser :=
  Eval vm_compute in
    match play (platform := Sample.platform) viewingActs
            ((initialState, Sample.db), []) with
    | Some b => b
    | None => ((initialState, Sample.db), [])
    end.

(** * Properties *)

(** ** Cart operations *)

Section CartFacts.

Variables (rnd : N) (p : Product.t).









End CartFacts.



Section QuantityFacts.

Variables (id : N) (q : Z).

Let keep (item : CartEntry.t) : bool := negb (CartEntry.id item =? id)%N.

Let set (item : CartEntry.t) : CartEntry.t :=
  if (CartEntry.id item =? id)%N then CartEntry.with_quantity q item else item.

Lemma filter_other_ids (l : list CartEntry.t) :
  (forall x, In x l -> CartEntry.id x <> id) -> filter keep l = l.
Proof.
  intros Hother. induction l as [|x l IH]; [reflexivity|]. simpl.
  unfold keep at 1.
  destruct (N.eqb_spec (CartEntry.id x) id) as [E|E].
  - exfalso. apply (Hother x); [now left | exact E].
  - simpl. f_equal. apply IH. intros y Hy. apply Hother. now right.
Qed.

Lemma map_other_ids (l : list CartEntry.t) :
  (forall x, In x l -> CartEntry.id x <> id) -> map set l = l.
Proof.
  intros Hother. rewrite <- (map_id l) at 2.
  apply map_ext_in. intros x Hin. unfold set.
  destruct (N.eqb_spec (CartEntry.id x) id) as [E|E].
  - now apply Hother in Hin.
  - reflexivity.
Qed.

Lemma updateQuantity_cart (st : State) :
  cart (updateQuantity id q st) =
    if q <=? 0 then filter keep (cart st) else map set (cart st).
Proof.
  unfold updateQuantity, removeFromCart. now destruct (q <=? 0).
Qed.

End QuantityFacts.

(** C4.  Let the cart hold an entry [e] with the entry id [id], and no
    other entry with that id.  Then [updateQuantity(id, q)] with [q <= 0]
    removes [e] and nothing else, so that the cart has exactly one entry
    less; with [q > 0] it replaces [e] by [e] with quantity [q], whatever
    [q] is (no bound from the stock), and the number of entries stays. *)
Theorem updateQuantity_removes_or_sets :
  forall (id : N) (q : Z) (st : State)
         (before after : list CartEntry.t) (e : CartEntry.t),
    cart st = (before ++ e :: after)%list ->
    CartEntry.id e = id ->
    (forall x, In x (before ++ after) -> CartEntry.id x <> id) ->
    let c' := cart (updateQuantity id q st) in
    (q <= 0 ->
       c' = (before ++ after)%list /\
       S (List.length c') = List.length (cart st))
    /\
    (0 < q ->
       c' = (before ++ CartEntry.with_quantity q e :: after)%list /\
       List.length c' = List.length (cart st)).
Proof.
  intros id q st before after e Hcart Hid Hothers c'.
  assert (Hb : forall x, In x before -> CartEntry.id x <> id).
  { intros x Hx. apply Hothers. apply in_or_app. now left. }
  assert (Ha : forall x, In x after -> CartEntry.id x <> id).
  { intros x Hx. apply Hothers. apply in_or_app. now right. }
  subst c'. rewrite updateQuantity_cart, Hcart. split.
  - intros Hq. apply Z.leb_le in Hq. rewrite Hq.
    rewrite filter_app. simpl. rewrite Hid, N.eqb_refl. simpl.
    rewrite (filter_other_ids id before Hb), (filter_other_ids id after Ha).
    split; [reflexivity|].
    rewrite !length_app. simpl. lia.
  - intros Hq. apply Z.leb_gt in Hq. rewrite Hq.
    rewrite map_app. simpl. rewrite Hid, N.eqb_refl.
    rewrite (map_other_ids id q before Hb), (map_other_ids id q after Ha).
    split; [reflexivity|].
    rewrite !length_app. reflexivity.
Qed.

(** Against C4 as first stated: a cart that holds an entry with the given
    id and loses two entries.  The two entries of the cart carry the same
    draw of [Math.random()] as their id; the decrement button of the first,
    at quantity 1, calls [updateQuantity] with 0, and the cart is empty
    afterwards. *)
Lemma shared_id_removes_two_entries :
  option_map (fun w : World => cart (fst w))
    (run (platform := Sample.platform) sharedDraw (initialState, Sample.db))
  = Some [CartEntry.mk 5 1 (JS.lit "Red Shirt") 19.99%float
      (Some (JS.lit "/img/shirt-1.jpg")) 1;
          CartEntry.mk 5 3 (JS.lit "Desk Lamp") 34.25%float
              (Some (JS.lit "/img/lamp.jpg")) 1]
  /\ option_map (fun w : World => cart (fst w))
       (run (platform := Sample.platform) (sharedDraw ++ [CartMinus 0])
          (initialState, Sample.db))
     = Some []
  /\ cart (updateQuantity 5 0
             (initialState
                |> setCart
                     [CartEntry.mk 5 1 (JS.lit "Red Shirt") 19.99%float
                         (Some (JS.lit "/img/shirt-1.jpg")) 1;
                      CartEntry.mk 5 3 (JS.lit "Desk Lamp") 34.25%float
                          (Some (JS.lit "/img/lamp.jpg")) 1]))
     = [].
Proof. repeat split. Qed.

Lemma updateQuantity_removes_or_sets_witness :
  cart (updateQuantity 5 0 Sample.atCheckout) = [] /\
  cart (updateQuantity 5 7 Sample.atCheckout)
  = [CartEntry.mk 5 1 (JS.lit "Red Shirt") 19.99%float
      (Some (JS.lit "/img/shirt-1.jpg")) 7].
Proof.
  split.
  - refine (proj1 (proj1 (updateQuantity_removes_or_sets 5 0 Sample.atCheckout
                            [] [] _ eq_refl eq_refl _) _)).
    + intros x Hx. destruct Hx.
    + lia.
  - refine (proj1 (proj2 (updateQuantity_removes_or_sets 5 7 Sample.atCheckout
                            [] [] _ eq_refl eq_refl _) _)).
    + intros x Hx. destruct Hx.
    + lia.
Defined.

(** ** The quantity field of a cart item *)

Lemma orElse_nonzero (x : JS.number) : JS.orElse x 1 <> 0.
Proof.
  destruct x as [z|]; simpl; [|lia].
  destruct (Z.eqb_spec z 0); lia.
Qed.

Lemma orElse_falsy (x : JS.number) :
  x = JS.NaN \/ x = JS.Num 0 -> JS.orElse x 1 = 1.
Proof. intros [-> | ->]; reflexivity. Qed.

(** C10.  Editing the number input of a cart item calls [updateQuantity]
    with [parseInt(text) || 1]: the parsed number, or 1 when the parse is
    [NaN] or 0.  The argument is never 0.  When the parse is [NaN] or 0 --
    as for the texts ["0"] and [""] -- an entry of the cart is kept with
    quantity 1 and the cart keeps its length.  The decrement button at
    quantity 1 does pass 0, and then the entries with that id are
    filtered out, as the remove button does. *)
Theorem quantity_input_coerces_to_one :
  forall (item : CartEntry.t) (text : JS.string) (st : State),
    let q := JS.orElse (JS.parseInt text) 1 in
    CartItem.onChange item text st = updateQuantity (CartEntry.id item) q st
    /\ q <> 0
    /\ (forall z, JS.parseInt text = JS.Num z -> z <> 0 -> q = z)
    /\ (JS.parseInt text = JS.NaN \/ JS.parseInt text = JS.Num 0 ->
          q = 1
          /\ List.length (cart (CartItem.onChange item text st))
             = List.length (cart st)
          /\ (In item (cart st) ->
                In (CartEntry.with_quantity 1 item)
                   (cart (CartItem.onChange item text st))))
    /\ JS.parseInt (JS.lit "0") = JS.Num 0
    /\ JS.parseInt [] = JS.NaN
    /\ (CartEntry.quantity item = 1 ->
          cart (CartItem.onMinus item st) = cart (CartItem.onRemove item st)).
Proof.
  intros item text st q. repeat split.
  - apply orElse_nonzero.
  - intros z Hz Hnz. subst q. rewrite Hz. simpl.
    destruct (Z.eqb_spec z 0); [contradiction | reflexivity].
  - now apply orElse_falsy.
  - unfold CartItem.onChange. rewrite (orElse_falsy _ H).
    rewrite updateQuantity_cart. simpl. apply length_map.
  - intros Hin. unfold CartItem.onChange. rewrite (orElse_falsy _ H).
    rewrite updateQuantity_cart. simpl.
    apply in_map_iff. exists item. split; [|exact Hin].
    now rewrite N.eqb_refl.
  - intros Hone. unfold CartItem.onMinus, CartItem.onRemove.
    rewrite Hone. reflexivity.
Qed.

Lemma quantity_input_coerces_to_one_witness :
  cart (CartItem.onChange
          (CartEntry.mk 5 1 (JS.lit "Red Shirt") 19.99%float
              (Some (JS.lit "/img/shirt-1.jpg")) 2)
          (JS.lit "0") Sample.atCheckout)
  = [CartEntry.mk 5 1 (JS.lit "Red Shirt") 19.99%float
      (Some (JS.lit "/img/shirt-1.jpg")) 1].
Proof.
  rewrite (proj1 (quantity_input_coerces_to_one
                    (CartEntry.mk 5 1 (JS.lit "Red Shirt") 19.99%float
                        (Some (JS.lit "/img/shirt-1.jpg")) 2)
                    (JS.lit "0") Sample.atCheckout)).
  reflexivity.
Defined.

(** ** Buy now *)

(** C9.  For every product and every state, [buyNow] writes the same cart
    as [addToCart] (for the same draw of [Math.random()]): the state after
    [buyNow] is the state after [addToCart] with [showCart], [showCheckout],
    [showOrders] and [selectedProduct] set to [false], [true], [false] and
    [null].  [addToCart] leaves the panel as it is, and [buyNow] -- with no
    order confirmation on display, as wherever its button is rendered --
    leads to the Checkout panel. *)
Theorem buyNow_same_cart_as_addToCart :
  forall (rnd : N) (p : Product.t) (st : State),
    let added := fst (addToCart rnd p st) in
    let bought := buyNow rnd p st in
    cart bought = cart added
    /\ bought = (added |> setShowCart false |> setShowCheckout true
                       |> setShowOrders false |> setSelectedProduct None)
    /\ added = (st |> setCart (cart added))
    /\ panel added = panel st
    /\ (orderConfirmation st = None -> panel bought = Checkout)
    /\ (render st = Some ProductDetail -> render bought = Some Checkout).
Proof.
  intros rnd p st added bought. subst added bought.
  unfold addToCart, buyNow.
  destruct (find _ (cart st)); simpl; repeat split;
    try (intros H; unfold panel; simpl; now rewrite H).
  all: unfold render, panel; simpl; destruct (loading st); try discriminate;
    destruct (orderConfirmation st); try discriminate; reflexivity.
Qed.

Lemma buyNow_same_cart_as_addToCart_witness :
  panel (buyNow 5 Sample.redShirt initialState) = Checkout.
Proof.
  exact (proj1 (proj2 (proj2 (proj2 (proj2
           (buyNow_same_cart_as_addToCart 5 Sample.redShirt initialState)))))
           eq_refl).
Defined.

(** ** Image carousel *)

Lemma nextImage_index (st : State) (product : Product.t) (i n : Z) :
  selectedProduct st = Some product ->
  n = Z.of_nat (List.length (getProductImages product)) ->
  1 <= n -> currentImageIndex st = JS.Num i -> 0 <= i < n ->
  currentImageIndex (nextImage st) = JS.Num ((i + 1) mod n).
Proof.
  intros Hsel Hn Hpos Hidx Hi. unfold nextImage. rewrite Hsel. simpl.
  rewrite Hidx, <- Hn. simpl.
  destruct (Z.eqb_spec n 0); [lia|].
  f_equal. apply Z.rem_mod_nonneg; lia.
Qed.

Lemma prevImage_index (st : State) (product : Product.t) (i n : Z) :
  selectedProduct st = Some product ->
  n = Z.of_nat (List.length (getProductImages product)) ->
  1 <= n -> currentImageIndex st = JS.Num i -> 0 <= i < n ->
  currentImageIndex (prevImage st) = JS.Num ((i - 1 + n) mod n).
Proof.
  intros Hsel Hn Hpos Hidx Hi. unfold prevImage. rewrite Hsel. simpl.
  rewrite Hidx, <- Hn. simpl.
  destruct (Z.eqb_spec n 0); [lia|].
  f_equal. replace (i + -1 + n) with (i - 1 + n) by lia.
  apply Z.rem_mod_nonneg; lia.
Qed.

Lemma nextImage_selectedProduct (st : State) :
  selectedProduct (nextImage st) = selectedProduct st.
Proof.
  unfold nextImage. destruct (selectedProduct st) eqn:Hsel; simpl; congruence.
Qed.

Lemma wrap_back (i n : Z) :
  0 <= i < n -> ((i + 1) mod n - 1 + n) mod n = i.
Proof.
  intros Hi. destruct (Z.eq_dec (i + 1) n) as [E|E].
  - rewrite E, Z_mod_same_full. rewrite Z.mod_small; lia.
  - rewrite (Z.mod_small (i + 1) n) by lia.
    replace (i + 1 - 1 + n) with (i + 1 * n) by lia.
    rewrite Z_mod_plus_full. apply Z.mod_small; lia.
Qed.

(** C6.  For a selected product with [n >= 1] images and a current index
    [i] with [0 <= i < n], [nextImage] moves the index to [(i+1) mod n] and
    [prevImage] moves it to [(i-1+n) mod n]; [prevImage] after [nextImage]
    gives [i] back; with three images, next from 2 gives 0 and prev from 0
    gives 2. *)
Theorem carousel_wraps_modulo_length :
  forall (st : State) (product : Product.t) (i : Z),
    selectedProduct st = Some product ->
    let n := Z.of_nat (List.length (getProductImages product)) in
    1 <= n ->
    currentImageIndex st = JS.Num i ->
    0 <= i < n ->
    currentImageIndex (nextImage st) = JS.Num ((i + 1) mod n)
    /\ currentImageIndex (prevImage st) = JS.Num ((i - 1 + n) mod n)
    /\ currentImageIndex (prevImage (nextImage st)) = JS.Num i
    /\ (n = 3 -> i = 2 -> currentImageIndex (nextImage st) = JS.Num 0)
    /\ (n = 3 -> i = 0 -> currentImageIndex (prevImage st) = JS.Num 2).
Proof.
  intros st product i Hsel n Hpos Hidx Hi.
  assert (Hnext := nextImage_index st product i n Hsel eq_refl Hpos Hidx Hi).
  assert (Hprev := prevImage_index st product i n Hsel eq_refl Hpos Hidx Hi).
  repeat split; try assumption.
  - assert (Hrange : 0 <= (i + 1) mod n < n) by (apply Z.mod_pos_bound; lia).
    rewrite (prevImage_index (nextImage st) product ((i + 1) mod n) n);
      try assumption; try reflexivity.
    + f_equal. now apply wrap_back.
    + now rewrite nextImage_selectedProduct.
  - intros Hn3 Hi2. rewrite Hnext, Hn3, Hi2. reflexivity.
  - intros Hn3 Hi0. rewrite Hprev, Hn3, Hi0. reflexivity.
Qed.

Lemma carousel_wraps_modulo_length_witness :
  currentImageIndex
    (nextImage (initialState |> setSelectedProduct (Some Sample.redShirt)
                             |> setCurrentImageIndex (fun _ => JS.Num 2)))
  = JS.Num 0
  /\ currentImageIndex
       (prevImage (initialState |> setSelectedProduct (Some Sample.redShirt)))
     = JS.Num 2.
Proof.
  split.
  - refine (proj1 (carousel_wraps_modulo_length
                     (initialState |> setSelectedProduct (Some Sample.redShirt)
                                   |> setCurrentImageIndex (fun _ => JS.Num 2))
                     Sample.redShirt 2 eq_refl _ eq_refl _)).
    + simpl. lia.
    + simpl. lia.
  - refine (proj1 (proj2 (carousel_wraps_modulo_length
                     (initialState |> setSelectedProduct (Some Sample.redShirt))
                     Sample.redShirt 0 eq_refl _ eq_refl _))).
    + simpl. lia.
    + simpl. lia.
Defined.

(** ** A successful checkout *)

(** What the handling of a successful response does.  The client shows
    the Confirmation panel for the returned order, the cart and the address
    field are empty, nothing is alerted and the catalog is as it was.  The
    order list becomes the list of the render that sent the request
    followed by the returned order: that is the order list in memory with
    the order appended at its end only if no other checkout response was
    handled since the request left -- as when [handleCheckout] runs from
    the click to the end with nothing in between. *)
Lemma successful_response_confirms_and_clears :
  forall (st cur : State) (order : Order.t),
    let st' := fst (afterFetch st (ResOk order) cur) in
    panel st' = Confirmation
    /\ orderConfirmation st' = Some order
    /\ cart st' = []
    /\ address st' = []
    /\ snd (afterFetch st (ResOk order) cur) = []
    /\ products st' = products cur
    /\ filteredProducts st' = filteredProducts cur
    /\ orders st' = (orders st ++ [order])%list
    /\ (orders cur = orders st -> orders st' = (orders cur ++ [order])%list)
    /\ forall (Backend : Type)
              (fetch : CheckoutData.t -> Backend -> Response * Backend)
              (b b' : Backend),
         JS.truthy (JS.trim (address st)) = true ->
         fetch (checkoutData st) b = (ResOk order, b') ->
         handleCheckout fetch st b
         = (fst (afterFetch st (ResOk order) st), [], b').
Proof.
  intros st cur order st'. subst st'. simpl.
  repeat split.
  - intros Hsame. now rewrite Hsame.
  - intros Backend fetch b b' Haddr Hfetch.
    unfold handleCheckout. rewrite Haddr, Hfetch. reflexivity.
Qed.

Example sample_checkout_confirms_and_clears :
  handleCheckout (fetchCheckout (Some (JS.lit "2026-11-03T10:00:00")))
    Sample.atCheckout Sample.db
  = (Sample.atCheckout
       |> setOrders [Order.mk 1 39.98%float (JS.lit "221B Baker St") (JS.lit "confirmed")
                       (JS.lit "2026-11-03T10:00:00")]
       |> setOrderConfirmation
            (Some (Order.mk 1 39.98%float (JS.lit "221B Baker St") (JS.lit "confirmed")
                     (JS.lit "2026-11-03T10:00:00")))
       |> setCart [] |> setAddress [] |> setShowCheckout false,
     [],
     Server.mkStore [Sample.redShirt; Sample.mug; Sample.lamp]
       [Order.mk 1 39.98%float (JS.lit "221B Baker St") (JS.lit "confirmed")
           (JS.lit "2026-11-03T10:00:00")]
       [Server.OrderItem.mk 1 1 1 2 19.99%float]).
Proof.
  refine (proj2 (proj2 (proj2 (proj2 (proj2 (proj2 (proj2 (proj2 (proj2
           (successful_response_confirms_and_clears
              Sample.atCheckout Sample.atCheckout
              (Order.mk 1 39.98%float (JS.lit "221B Baker St") (JS.lit "confirmed")
                 (JS.lit "2026-11-03T10:00:00")))))))))))
           Server.Store (fetchCheckout (Some (JS.lit "2026-11-03T10:00:00")))
           Sample.db _ eq_refl eq_refl).
Qed.

(** ** Strings *)

(** Membership in a table that is written out. *)
Ltac in_table :=
  cbv;
  let rec go := first [reflexivity | left; go | right; go] in go.

Section StringFacts.

Lemma string_eqb_eq (a b : JS.string) : JS.eqb a b = true <-> a = b.
Proof.
  revert b. induction a as [|x a IH]; intros [|y b]; simpl;
    try (split; [reflexivity || discriminate | reflexivity || discriminate]).
  rewrite andb_true_iff, N.eqb_eq, IH. split.
  - intros [Hc Hs]. now rewrite Hc, Hs.
  - intros H. now inversion H.
Qed.

Lemma string_eqb_refl (a : JS.string) : JS.eqb a a = true.
Proof. now apply string_eqb_eq. Qed.

Lemma string_dec (a b : JS.string) : {a = b} + {a <> b}.
Proof. apply (list_eq_dec N.eq_dec). Defined.

(** The test of [trim] is membership in the table of white space. *)
Lemma isWhiteSpace_iff (c : N) :
  JS.isWhiteSpace c = true <-> In c whiteSpaceCodes.
Proof.
  unfold JS.isWhiteSpace, whiteSpaceCodes.
  rewrite !orb_true_iff, !andb_true_iff, !N.leb_le, !N.eqb_eq.
  simpl. lia.
Qed.

Lemma trimStart_head (s : JS.string) :
  JS.trimStart s = [] \/
  exists c r, JS.trimStart s = c :: r /\ JS.isWhiteSpace c = false.
Proof.
  induction s as [|c s IH]; simpl; [now left|].
  destruct (JS.isWhiteSpace c) eqn:Hc; [exact IH|].
  right. now exists c, s.
Qed.

Lemma trimStart_empty (s : JS.string) : JS.trimStart s = [] <-> blank s.
Proof.
  unfold blank. induction s as [|c s IH]; simpl.
  - split; [constructor | reflexivity].
  - destruct (JS.isWhiteSpace c) eqn:Hc.
    + rewrite IH. split.
      * intros H. constructor; [now apply isWhiteSpace_iff | exact H].
      * intros H. now inversion H.
    + split; [discriminate|]. intros H. inversion H as [|? ? Hin ?].
      apply isWhiteSpace_iff in Hin. congruence.
Qed.

Lemma trimEnd_nonblank_head (c : N) (r : JS.string) :
  JS.isWhiteSpace c = false -> JS.trimEnd (c :: r) <> [].
Proof.
  intros Hc. simpl. destruct (JS.trimEnd r); [rewrite Hc|]; discriminate.
Qed.

Lemma trim_empty (s : JS.string) : JS.trim s = [] <-> blank s.
Proof.
  rewrite <- trimStart_empty. unfold JS.trim.
  destruct (trimStart_head s) as [E | [c [r [E Hc]]]]; rewrite E.
  - simpl. tauto.
  - split; [|discriminate].
    intros H. now apply trimEnd_nonblank_head in H.
Qed.


Lemma truthy_trim (term : JS.string) :
  JS.truthy (JS.trim term) = false <-> blank term.
Proof.
  rewrite <- trim_empty. destruct (JS.trim term); simpl; split; congruence.
Qed.

Lemma truthy_trim_not (term : JS.string) :
  JS.truthy (JS.trim term) = true <-> ~ blank term.
Proof.
  rewrite <- truthy_trim. destruct (JS.truthy (JS.trim term)); split; congruence.
Qed.



(** The letters of the table are 26 pairs, 32 apart. *)
Lemma letters_table (n : nat) :
  (n < 26)%nat ->
  In ((65 + N.of_nat n)%N, (97 + N.of_nat n)%N)
     (combine upperLetters lowerLetters).
Proof.
  intros Hn.
  do 26 (destruct n as [|n];
         [in_table |]).
  lia.
Qed.

Lemma table_letters (c d : N) :
  In (c, d) (combine upperLetters lowerLetters) ->
  (65 <= c <= 90)%N /\ d = (c + 32)%N.
Proof.
  intros H. cbv in H.
  repeat (destruct H as [H|H]; [inversion H; subst; lia |]).
  contradiction.
Qed.

(** Folding the case of ASCII letters identifies exactly the code units
    that are the same when case is ignored. *)
Lemma lowerAscii_same (c d : N) :
  JS.lowerAscii c = JS.lowerAscii d <-> sameIgnoringCase c d.
Proof.
  unfold JS.lowerAscii, sameIgnoringCase. split.
  - intros H.
    destruct (N.leb_spec 65 c), (N.leb_spec c 90),
             (N.leb_spec 65 d), (N.leb_spec d 90); simpl in H;
      try (left; lia);
      first
        [ right; left; subst d;
          replace c with (65 + N.of_nat (N.to_nat (c - 65)))%N at 1 by lia;
          replace (c + 32)%N with (97 + N.of_nat (N.to_nat (c - 65)))%N by lia;
          apply letters_table; lia
        | right; right; subst c;
          replace d with (65 + N.of_nat (N.to_nat (d - 65)))%N at 1 by lia;
          replace (d + 32)%N with (97 + N.of_nat (N.to_nat (d - 65)))%N by lia;
          apply letters_table; lia ].
  - intros [H | [H | H]].
    + now subst d.
    + apply table_letters in H. destruct H as [Hc Hd]. subst d.
      destruct (N.leb_spec 65 c), (N.leb_spec c 90),
               (N.leb_spec 65 (c + 32)), (N.leb_spec (c + 32) 90);
        simpl; lia.
    + apply table_letters in H. destruct H as [Hd Hc]. subst c.
      destruct (N.leb_spec 65 d), (N.leb_spec d 90),
               (N.leb_spec 65 (d + 32)), (N.leb_spec (d + 32) 90);
        simpl; lia.
Qed.

Lemma equalIgnoringCase_iff (a b : JS.string) :
  equalIgnoringCase a b <-> map JS.lowerAscii a = map JS.lowerAscii b.
Proof.
  unfold equalIgnoringCase. split.
  - induction 1 as [|x y a b Hxy _ IH]; simpl; [reflexivity|].
    apply lowerAscii_same in Hxy. now rewrite Hxy, IH.
  - revert b. induction a as [|x a IH]; intros [|y b] H; simpl in H;
      try discriminate; constructor.
    + apply lowerAscii_same. now inversion H.
    + apply IH. now inversion H.
Qed.

Lemma isAscii_app (a b : JS.string) :
  JS.isAscii (a ++ b) <-> JS.isAscii a /\ JS.isAscii b.
Proof. unfold JS.isAscii. apply Forall_app. Qed.


End StringFacts.

(** ** Search and filter *)

Section SearchFacts.
Context {platform : JS.Platform}.

Lemma searchFilter_unfold (catalog : list Product.t) (cat term : JS.string) :
  searchFilter catalog cat term =
    filter (fun p =>
              negb (JS.truthy (JS.trim term))
              || JS.includes (JS.toLowerCase (Product.name p)) (JS.toLowerCase term))
      (filter (fun p => JS.eqb cat (JS.lit "All")
                        || JS.eqb (Product.category p) cat)
         catalog).
Proof.
  assert (Hall : forall l : list Product.t, filter (fun _ => true) l = l).
  { induction l as [|x l IH]; simpl; [reflexivity | now rewrite IH]. }
  unfold searchFilter.
  destruct (JS.eqb cat (JS.lit "All")); destruct (JS.truthy (JS.trim term)); simpl;
    now rewrite ?Hall.
Qed.



End SearchFacts.


(** The examples of the specification. *)
Example search_red_finds_shirt :
  searchFilter (platform := Sample.platform)
    [Sample.redShirt] (JS.lit "All") (JS.lit "red") = [Sample.redShirt].
Proof. reflexivity. Qed.

Example category_electronics_is_empty :
  searchFilter (platform := Sample.platform)
    [Sample.redShirt] (JS.lit "Electronics") [] = [].
Proof. reflexivity. Qed.

(** ** Checkout against the order service *)

Lemma partialSum_app (items : list LineItem.t) (x : LineItem.t) (n : nat) :
  (n <= List.length items)%nat ->
  partialSum (items ++ [x]) n = partialSum items n.
Proof.
  induction n as [|n IH]; intros Hn; simpl; [reflexivity|].
  rewrite IH by lia. rewrite nth_error_app1 by lia. reflexivity.
Qed.

(** The sum of lines followed by one more line. *)
Lemma sumOfLines_snoc (items : list LineItem.t) (x : LineItem.t) :
  sumOfLines (items ++ [x]) = (sumOfLines items + lineAmount x)%float.
Proof.
  unfold sumOfLines. rewrite length_app, Nat.add_1_r. simpl.
  rewrite partialSum_app by lia.
  rewrite nth_error_app2 by lia. rewrite Nat.sub_diag. reflexivity.
Qed.

Lemma orderTotal_sum (items : list LineItem.t) :
  Server.orderTotal items = sumOfLines items.
Proof.
  unfold Server.orderTotal.
  induction items as [|x items IH] using rev_ind; [reflexivity|].
  rewrite fold_left_app, IH, sumOfLines_snoc. reflexivity.
Qed.

(** The [reduce] of [cartTotal] is the sum over the lines of the cart. *)
Lemma cartTotal_sum (c : list CartEntry.t) :
  cartTotal c = sumOfLines (map lineOf c).
Proof.
  rewrite <- orderTotal_sum. unfold cartTotal, Server.orderTotal.
  generalize 0%float. induction c as [|item c IH]; intros acc; simpl;
    [reflexivity | apply IH].
Qed.

Lemma blank_empty : blank [].
Proof. constructor. Qed.



(** C2.  A checkout attempt whose address is empty or all white space, or
    whose cart is empty, ends in one alert and changes neither the client
    state nor the store: no order row and no order item row is added.  A
    blank address is turned down by the client, whatever the service would
    do, for no request is made; an empty cart with an address is turned
    down by the service with a validation error, which the client reports.
    The service turns down every submission with an empty address or no
    items, leaving the store as it is. *)
Theorem checkout_rejected_without_address_or_items :
  forall (now : JS.string) (st : State) (db : Server.Store),
    blank (address st) \/ cart st = [] ->
    (exists alert : JS.string,
       handleCheckout (fetchCheckout (Some now)) st db = (st, [alert], db)
       /\ (blank (address st) ->
             alert = JS.lit "Please enter shipping address")
       /\ (~ blank (address st) ->
             alert = JS.lit "Checkout failed: Cart is empty"))
    /\ (blank (address st) ->
          forall (Backend : Type)
                 (fetch : CheckoutData.t -> Backend -> Response * Backend)
                 (b : Backend),
            handleCheckout fetch st b
            = (st, [JS.lit "Please enter shipping address"], b))
    /\ forall req : CheckoutData.t,
         CheckoutData.shipping_address req = [] \/ CheckoutData.items req = [] ->
         exists detail : JS.string,
           Server.checkout now req db = (ResError (DetailText detail), db).
Proof.
  intros now st db Hbad.
  assert (Hclient : blank (address st) ->
            forall (Backend : Type)
                   (fetch : CheckoutData.t -> Backend -> Response * Backend)
                   (b : Backend),
              handleCheckout fetch st b
              = (st, [JS.lit "Please enter shipping address"], b)).
  { intros Hblank Backend fetch b. unfold handleCheckout.
    apply truthy_trim in Hblank. rewrite Hblank. reflexivity. }
  split; [|split; [exact Hclient|]].
  - destruct (JS.truthy (JS.trim (address st))) eqn:Htrim.
    + assert (Hnot : ~ blank (address st)) by now apply truthy_trim_not.
      destruct Hbad as [Hblank | Hempty]; [contradiction|].
      exists (JS.lit "Checkout failed: Cart is empty").
      split; [|split; [contradiction | reflexivity]].
      unfold handleCheckout. rewrite Htrim. cbn [negb fetchCheckout].
      unfold checkoutData, Server.checkout. rewrite Hempty. simpl.
      destruct (JS.truthy (address st)) eqn:Haddr; simpl; [reflexivity|].
      exfalso. apply Hnot. destruct (address st); [apply blank_empty | discriminate].
    + assert (Hblank : blank (address st)) by now apply truthy_trim.
      exists (JS.lit "Please enter shipping address").
      split; [now apply Hclient|]. split; [reflexivity | contradiction].
  - intros req [Haddr | Hitems]; unfold Server.checkout.
    + rewrite Haddr. simpl. eexists. reflexivity.
    + rewrite Hitems. destruct (JS.truthy _); simpl; eexists; reflexivity.
Qed.

Lemma checkout_rejected_without_address_or_items_witness :
  handleCheckout (fetchCheckout (Some (JS.lit "2026-11-03T10:00:00")))
    (Sample.atCheckout |> setAddress (160%N :: JS.lit "  ")) Sample.db
  = (Sample.atCheckout |> setAddress (160%N :: JS.lit "  "),
     [JS.lit "Please enter shipping address"], Sample.db).
Proof.
  refine (proj1 (proj2 (checkout_rejected_without_address_or_items
                   (JS.lit "2026-11-03T10:00:00")
                   (Sample.atCheckout |> setAddress (160%N :: JS.lit "  "))
                   Sample.db (or_introl _))) _ _ _ _);
    unfold blank; cbn [address setAddress];
    repeat (apply Forall_cons; [in_table|]); apply Forall_nil.
Defined.

(** ** Panel selection *)

Ltac crack_step H :=
  repeat
    (simpl in H;
     match type of H with
     | None = Some _ => discriminate H
     | context [guard ?b _] => destruct b
     | context [match find ?f ?l with _ => _ end] => destruct (find f l)
     | context [option_map _ (nth_error ?l ?i)] => destruct (nth_error l i)
     | context [match nth_error ?l ?i with _ => _ end] =>
         destruct (nth_error l i)
     | context [match ?net with Some _ => _ | None => _ end] =>
         is_var net; destruct net
     | context [if ?b then _ else _] => destruct b
     | context [match ?l with [] => _ | _ :: _ => _ end] => destruct l
     | Some _ = Some _ => inversion H; subst; clear H
     end).

Section PanelFacts.
Context {platform : JS.Platform}.

Lemma run_reachable (es : list Event) (w w' : World) :
  reachable w -> run es w = Some w' -> reachable w'.
Proof.
  revert w. induction es as [|e es IH]; intros w Hw Hrun; simpl in Hrun.
  - now inversion Hrun; subst.
  - destruct (step e w) as [w1|] eqn:Hstep; [|discriminate].
    apply (IH w1); [|exact Hrun]. now apply reachable_step with w e.
Qed.

Lemma filterEffect_indicators (st : State) :
  activeIndicators (filterEffect st) = activeIndicators st.
Proof. reflexivity. Qed.

Lemma handle_exclusive (e : Event) (st st' : State) (db db' : Server.Store) :
  (activeIndicators st <= 1)%nat ->
  handle e (st, db) = Some (st', db') ->
  (activeIndicators st' <= 1)%nat.
Proof.
  intros Hinv Hstep.
  destruct st as [ps fps c sc sco sel term cat addr ld os so idx conf].
  unfold activeIndicators in Hinv. simpl in Hinv.
  unfold handle, render, panel in Hstep.
  destruct ld, conf, so, sel, sc, sco; simpl in Hinv; try lia;
    destruct e; simpl in Hstep; try discriminate Hstep;
    unfold addToCart, buyNow, CartItem.onMinus, CartItem.onChange,
      CartItem.onPlus, CartItem.onRemove, updateQuantity, removeFromCart,
      handleCheckout, afterFetch, fetchCheckout, Server.checkout, nextImage,
      prevImage in Hstep;
    crack_step Hstep; unfold activeIndicators; simpl; lia.
Qed.

Lemma step_exclusive (e : Event) (w w' : World) :
  (activeIndicators (fst w) <= 1)%nat ->
  step e w = Some w' ->
  (activeIndicators (fst w') <= 1)%nat.
Proof.
  intros Hinv Hstep. unfold step in Hstep.
  destruct (handle e w) as [[st1 db1]|] eqn:Hhandle; [|discriminate].
  simpl in Hstep. inversion Hstep; subst; clear Hstep. simpl.
  rewrite filterEffect_indicators.
  destruct w as [st db]. now apply (handle_exclusive e st st1 db db1).
Qed.

Lemma reachable_exclusive (w : World) :
  reachable w -> (activeIndicators (fst w) <= 1)%nat.
Proof.
  induction 1 as [db | w w' e Hreach IH Hstep].
  - simpl. unfold activeIndicators. simpl. lia.
  - now apply (step_exclusive e w w').
Qed.

(** With at most one indicator active, the panel rendered is the one of
    the active indicator, and the catalog when there is none. *)
Lemma exclusive_panel (st : State) :
  (activeIndicators st <= 1)%nat ->
  (activeIndicators st = 0%nat <-> panel st = Catalog)
  /\ (showCart st = true <-> panel st = Cart)
  /\ (showCheckout st = true <-> panel st = Checkout)
  /\ (showOrders st = true <-> panel st = Orders)
  /\ (selectedProduct st <> None <-> panel st = ProductDetail)
  /\ (orderConfirmation st <> None <-> panel st = Confirmation).
Proof.
  unfold activeIndicators, panel.
  destruct (showCart st), (showCheckout st), (showOrders st),
    (selectedProduct st), (orderConfirmation st); simpl; intros Hinv;
    try lia; repeat split; intros; try congruence; try lia.
Qed.

(** C8.  When every checkout response is handled before the next event
    (the transitions of [step]), the panel selection is a single variable:
    from every reachable state, every transition -- the header's home,
    orders and cart buttons, selecting a product, proceeding to checkout,
    buy now, placing an order with its response, continue shopping, and
    every other control the panels render -- leads to a state in which at
    most one of [showCart], [showCheckout], [showOrders], [selectedProduct]
    and [orderConfirmation] is active; the panel shown is that of the
    active indicator, and the catalog when none is active. *)
Theorem panel_indicators_mutually_exclusive :
  forall (w w' : World) (e : Event),
    reachable w ->
    step e w = Some w' ->
    let st' := fst w' in
    (activeIndicators st' <= 1)%nat
    /\ (activeIndicators st' = 0%nat <-> panel st' = Catalog)
    /\ (showCart st' = true <-> panel st' = Cart)
    /\ (showCheckout st' = true <-> panel st' = Checkout)
    /\ (showOrders st' = true <-> panel st' = Orders)
    /\ (selectedProduct st' <> None <-> panel st' = ProductDetail)
    /\ (orderConfirmation st' <> None <-> panel st' = Confirmation).
Proof.
  intros w w' e Hreach Hstep st'.
  assert (Hinv : (activeIndicators st' <= 1)%nat).
  { apply (step_exclusive e w w'); [|exact Hstep].
    now apply reachable_exclusive. }
  split; [exact Hinv | now apply exclusive_panel].
Qed.

End PanelFacts.

Example session_reaches_checkout :
  option_map (fun w => render (fst w))
    (run (platform := Sample.platform) session (initialState, Sample.db))
  = Some (Some Checkout).
Proof. reflexivity. Qed.

Example session_places_order :
  option_map (fun w => (render (fst w), orders (fst w), cart (fst w)))
    (run (platform := Sample.platform)
         (session ++ [PlaceOrder (Some (JS.lit "2026-11-03T10:00:00"))])
         (initialState, Sample.db))
  = Some (Some Confirmation,
          [Order.mk 1 19.99%float (JS.lit "221B Baker St") (JS.lit "confirmed")
              (JS.lit "2026-11-03T10:00:00")],
          []).
Proof. reflexivity. Qed.

Lemma panel_indicators_mutually_exclusive_witness :
  (activeIndicators (fst placedWorld) <= 1)%nat
  /\ panel (fst placedWorld) = Confirmation.
Proof.
  split; [|reflexivity].
  exact (proj1 (panel_indicators_mutually_exclusive
                  (platform := Sample.platform) checkoutWorld placedWorld
                  (PlaceOrder (Some (JS.lit "2026-11-03T10:00:00")))
                  (run_reachable session (initialState, Sample.db) checkoutWorld
                     (reachable_init Sample.db) eq_refl)
                  eq_refl)).
Defined.

Section FlightFacts.
Context {platform : JS.Platform}.

Lemma afterFetch_filterEffect (st : State) (response : Response) :
  filterEffect (fst (afterFetch st response (filterEffect st)))
  = filterEffect (fst (afterFetch st response st)).
Proof. destruct response; reflexivity. Qed.

(** [step] is [act] with each request answered and handled at once. *)
Lemma step_is_unhurried_play (e : Event) (st : State) (db : Server.Store)
    (w' : World) :
  step e (st, db) = Some w' ->
  play (unhurried e st) ((st, db), []) = Some (w', []).
Proof.
  intros Hstep. destruct e;
    try (simpl; rewrite Hstep; reflexivity).
  unfold step, handle, handleCheckout in Hstep.
  unfold unhurried, play, act.
  destruct (render st) as [[]|] eqn:Hrender;
    try discriminate Hstep;
    destruct (negb (JS.truthy (JS.trim (address st)))) eqn:Hblank;
    try discriminate Hstep.
  - simpl in Hstep. rewrite Hrender, Hblank. now inversion Hstep.
  - rewrite Hrender, Hblank. simpl.
    destruct (fetchCheckout net (checkoutData st) db) as [response db1].
    rewrite afterFetch_filterEffect.
    destruct (afterFetch st response st) as [st1 alerts]. simpl in *.
    now inversion Hstep.
Qed.

End FlightFacts.

(** C7.  A successful checkout response does not always append the
    returned order to the order list in memory.  [setOrders([...orders,
    order])] stores the order list of the render whose [handleCheckout] was
    called, followed by the order, whatever the list in memory holds by
    then.  So with Place Order clicked twice before the first response is
    back, both requests accepted by the service: once the first response is
    handled the client's list holds the first order, and once the second is
    handled it holds the second order alone -- not the list in memory with
    the order appended -- while the service holds both. *)
Theorem double_submit_drops_first_order :
  (forall (st cur : State) (order : Order.t),
     orders (fst (afterFetch st (ResOk order) cur))
     = (orders st ++ [order])%list)
  /\
  let o1 := Order.mk 1 19.99%float (JS.lit "221B Baker St") (JS.lit "confirmed")
              (JS.lit "2026-11-03T10:00:00") in
  let o2 := Order.mk 2 19.99%float (JS.lit "221B Baker St") (JS.lit "confirmed")
              (JS.lit "2026-11-03T10:00:01") in
  option_map (fun b : Browser => (orders (fst (fst b)), snd b))
    (play (platform := Sample.platform) (removelast doubleSubmit)
       ((initialState, Sample.db), []))
  = Some ([o1], [(fst checkoutWorld, Answered (ResOk o2))])
  /\ option_map
       (fun b : Browser =>
          (orders (fst (fst b)), Server.orders (snd (fst b)), snd b))
       (play (platform := Sample.platform) doubleSubmit
          ((initialState, Sample.db), []))
     = Some ([o2], [o1; o2], [])
  /\ [o2] <> ([o1] ++ [o2])%list.
Proof.
  split; [reflexivity|]. repeat split. discriminate.
Qed.

(** Against C8 as first stated: a reachable state and a transition that
    leaves two indicators active.  An order is placed, the Orders button is
    clicked while the response is on its way, and the successful response
    arrives: [showOrders] and [orderConfirmation] are then both active (the
    Confirmation panel is the one rendered), and a click on Orders from
    there leads to the catalog. *)
Lemma late_response_leaves_two_indicators :
  option_map
    (fun b : Browser =>
       let st := fst (fst b) in
       (showOrders st, orderConfirmation st, activeIndicators st, render st))
    (play (platform := Sample.platform) lateResponse ((initialState, Sample.db), []))
  = Some (true,
          Some (Order.mk 1 19.99%float (JS.lit "221B Baker St") (JS.lit "confirmed")
              (JS.lit "2026-11-03T10:00:00")),
          2%nat, Some Confirmation)
  /\
  option_map (fun b : Browser => render (fst (fst b)))
    (play (platform := Sample.platform) (lateResponse ++ [Ui OrdersClick])
       ((initialState, Sample.db), []))
  = Some (Some Catalog).
Proof. split; reflexivity. Qed.


(** Under any interleaving of events and responses the indicators stay
    loosely exclusive: the only overlap is [orderConfirmation] with
    [showOrders] or [selectedProduct]. *)
Lemma handle_loosely_exclusive (e : Event) (st st' : State)
    (db db' : Server.Store) :
  looselyExclusive st ->
  handle e (st, db) = Some (st', db') ->
  looselyExclusive st'.
Proof.
  intros [Hfour Hconf] Hstep.
  destruct st as [ps fps c sc sco sel term cat addr ld os so idx conf].
  simpl in Hfour, Hconf.
  unfold handle, render, panel in Hstep.
  destruct ld, conf, so, sel, sc, sco; simpl in Hfour, Hconf; try lia;
    destruct e; simpl in Hstep; try discriminate Hstep;
    unfold addToCart, buyNow, CartItem.onMinus, CartItem.onChange,
      CartItem.onPlus, CartItem.onRemove, updateQuantity, removeFromCart,
      handleCheckout, afterFetch, fetchCheckout, Server.checkout, nextImage,
      prevImage in Hstep;
    crack_step Hstep; unfold looselyExclusive; simpl; lia.
Qed.

Section InterleavingFacts.
Context {platform : JS.Platform}.

Lemma act_loosely_exclusive (a : Action) (b b' : Browser) :
  looselyExclusive (fst (fst b)) ->
  act a b = Some b' ->
  looselyExclusive (fst (fst b')).
Proof.
  destruct b as [[st db] flights]. simpl. intros Hinv Hact.
  destruct a as [e | k | k].
  - assert (Hstep : forall w', step e (st, db) = Some w' ->
                               looselyExclusive (fst w')).
    { intros [st1 db1] Hs. unfold step in Hs.
      destruct (handle e (st, db)) as [[st2 db2]|] eqn:Hh; [|discriminate].
      inversion Hs; subst. simpl. change (looselyExclusive st2).
      eapply handle_loosely_exclusive; eassumption. }
    destruct e;
      try (simpl in Hact;
           destruct (step _ (st, db)) as [w1|] eqn:Hs; [|discriminate];
           inversion Hact; subst; now apply Hstep).
    simpl in Hact.
    destruct (render st) as [[]|]; try discriminate;
      destruct (negb (JS.truthy (JS.trim (address st))));
      inversion Hact; subst; exact Hinv.
  - simpl in Hact.
    destruct (nth_error flights k) as [[st0 [net | response]]|];
      try discriminate.
    destruct (fetchCheckout net (checkoutData st0) db).
    inversion Hact; subst. exact Hinv.
  - simpl in Hact.
    destruct (nth_error flights k) as [[st0 [net | response]]|];
      try discriminate.
    inversion Hact; subst. simpl.
    destruct Hinv as [Hfour Hconf]. unfold looselyExclusive.
    destruct response; simpl; [|split; assumption..].
    destruct (showCart st), (showCheckout st), (showOrders st),
      (selectedProduct st); simpl in *; lia.
Qed.

Lemma reachableBrowser_loosely_exclusive (b : Browser) :
  reachableBrowser b ->
  looselyExclusive (fst (fst b))
  /\ (orderConfirmation (fst (fst b)) <> None ->
        panel (fst (fst b)) = Confirmation).
Proof.
  intros Hreach. split.
  - induction Hreach as [db | b b' a Hreach IH Hact].
    + unfold looselyExclusive. simpl. lia.
    + now apply (act_loosely_exclusive a b b').
  - unfold panel. destruct (orderConfirmation (fst (fst b))); congruence.
Qed.

End InterleavingFacts.

(** * Further properties *)

(** ** The category buttons *)

Lemma existsb_eqb_In (x : JS.string) (l : list JS.string) :
  existsb (JS.eqb x) l = true <-> In x l.
Proof.
  rewrite existsb_exists. split.
  - intros [y [Hin Heq]]. apply string_eqb_eq in Heq. now subst.
  - intros Hin. exists x. split; [exact Hin | apply string_eqb_refl].
Qed.

Lemma distinct_In (seen xs : list JS.string) (x : JS.string) :
  In x (distinct seen xs) <-> In x xs /\ ~ In x seen.
Proof.
  revert seen. induction xs as [|y xs IH]; intros seen; simpl.
  - tauto.
  - destruct (existsb (JS.eqb y) seen) eqn:Hseen.
    + apply existsb_eqb_In in Hseen. rewrite IH. split.
      * intros [Hin Hnot]. tauto.
      * intros [[Heq | Hin] Hnot]; [subst; contradiction | tauto].
    + assert (Hnot : ~ In y seen).
      { intros Hin. apply existsb_eqb_In in Hin. congruence. }
      simpl. rewrite IH. simpl. split.
      * intros [Heq | [Hin Hno]]; [subst; tauto | tauto].
      * intros [[Heq | Hin] Hno]; [now left|].
        destruct (string_dec y x) as [E|E]; [now left|]. right. tauto.
Qed.

Lemma distinct_NoDup (seen xs : list JS.string) : NoDup (distinct seen xs).
Proof.
  revert seen. induction xs as [|y xs IH]; intros seen; simpl.
  - constructor.
  - destruct (existsb (JS.eqb y) seen); [apply IH|].
    constructor; [|apply IH].
    rewrite distinct_In. simpl. tauto.
Qed.

Lemma distinct_length (seen xs : list JS.string) :
  (List.length (distinct seen xs) <= List.length xs)%nat.
Proof.
  revert seen. induction xs as [|y xs IH]; intros seen; simpl; [lia|].
  destruct (existsb (JS.eqb y) seen); simpl.
  - specialize (IH seen). lia.
  - specialize (IH (y :: seen)). lia.
Qed.

(** X1.  The category buttons are "All" followed by the categories of the
    catalog, each once: a category is among them exactly when some product
    has it, and there are at most as many as products.  The whole row has
    a repeated button exactly when some product's category is itself
    "All". *)
Theorem categories_all_then_each_once :
  forall st : State,
    exists rest : list JS.string,
      categories st = (JS.lit "All") :: rest
      /\ NoDup rest
      /\ (forall c, In c rest <->
                    exists p, In p (products st) /\ Product.category p = c)
      /\ (List.length rest <= List.length (products st))%nat
      /\ (NoDup (categories st) <->
          forall p, In p (products st) -> Product.category p <> (JS.lit "All")).
Proof.
  intros st. unfold categories.
  exists (distinct [] (map Product.category (products st))).
  assert (Hmem : forall c,
             In c (distinct [] (map Product.category (products st))) <->
             exists p, In p (products st) /\ Product.category p = c).
  { intros c. rewrite distinct_In, in_map_iff. simpl. split.
    - intros [[p [Hc Hp]] _]. now exists p.
    - intros [p [Hp Hc]]. split; [now exists p | tauto]. }
  split; [reflexivity|]. split; [apply distinct_NoDup|].
  split; [exact Hmem|]. split.
  - rewrite <- (length_map Product.category (products st)).
    apply distinct_length.
  - split.
    + intros Hnodup p Hp Hall. inversion Hnodup as [|x l Hnotin _]; subst.
      apply Hnotin. apply Hmem. now exists p.
    + intros Hnone. constructor; [|apply distinct_NoDup].
      rewrite Hmem. intros [p [Hp Hall]]. now apply (Hnone p).
Qed.

(** ** The images of a product *)

(** X2.  The carousel of a product has at most three images, none of them
    the empty string; an address is among them exactly when it is non-empty
    and is one of the product's three image fields; and there is no image
    exactly when each field is [null] or empty. *)
Theorem getProductImages_at_most_three_nonempty :
  forall product : Product.t,
    let images := getProductImages product in
    (List.length images <= 3)%nat
    /\ Forall (fun u => JS.truthy u = true) images
    /\ (forall u, In u images <->
                  JS.truthy u = true
                  /\ (Product.image_url product = Some u
                      \/ Product.image_url2 product = Some u
                      \/ Product.image_url3 product = Some u))
    /\ (images = [] <->
        (forall u, Product.image_url product = Some u -> u = [])
        /\ (forall u, Product.image_url2 product = Some u -> u = [])
        /\ (forall u, Product.image_url3 product = Some u -> u = [])).
Proof.
  intros product images. subst images. unfold getProductImages.
  destruct (Product.image_url product) as [[|a1 u1]|];
    destruct (Product.image_url2 product) as [[|a2 u2]|];
    destruct (Product.image_url3 product) as [[|a3 u3]|];
    simpl; (split; [lia|]); (split; [repeat constructor|]);
    (split;
     [ intros u; split;
       [ intros H; repeat (destruct H as [H|H]; [subst; simpl; tauto|]);
         destruct H
       | intros [Ht [H|[H|H]]]; inversion H; subst; simpl in *;
         try discriminate; tauto ]
     | split;
       [ intros H; try discriminate H; repeat split; intros u Hu;
         inversion Hu; reflexivity
       | intros [H1 [H2 H3]]; try reflexivity;
         try (specialize (H1 _ eq_refl); discriminate);
         try (specialize (H2 _ eq_refl); discriminate);
         try (specialize (H3 _ eq_refl); discriminate) ] ]).
Qed.

(** ** Edits of the cart and its total *)

(** The total of a cart with one more entry at its end. *)
Lemma cartTotal_snoc (c : list CartEntry.t) (x : CartEntry.t) :
  cartTotal (c ++ [x])
  = (cartTotal c + CartEntry.price x * JS.ofZ (CartEntry.quantity x))%float.
Proof. unfold cartTotal. now rewrite fold_left_app. Qed.

Lemma filter_twice {A : Type} (f : A -> bool) (l : list A) :
  filter f (filter f l) = filter f l.
Proof.
  induction l as [|x l IH]; [reflexivity|]. simpl.
  destruct (f x) eqn:Hx; simpl; [rewrite Hx, IH|]; auto.
Qed.

(** X3.  [removeFromCart(id)] leaves exactly the entries whose id is not
    [id], in their order, and touches nothing but the cart.  An id that no
    entry has leaves the cart as it is; removing twice is removing once;
    and the cart is shorter by the number of entries with that id. *)
Theorem removeFromCart_drops_that_id_only :
  forall (id : N) (st : State),
    let st' := removeFromCart id st in
    (forall x, In x (cart st') <-> In x (cart st) /\ CartEntry.id x <> id)
    /\ st' = (st |> setCart (cart st'))
    /\ ((forall x, In x (cart st) -> CartEntry.id x <> id) ->
          cart st' = cart st)
    /\ removeFromCart id st' = st'
    /\ (List.length (cart st)
        = List.length (cart st')
          + List.length (filter (fun x => (CartEntry.id x =? id)%N) (cart st)))%nat.
Proof.
  intros id st st'. subst st'. unfold removeFromCart. simpl.
  split; [|split; [reflexivity|split; [|split]]].
  - intros x. rewrite filter_In, negb_true_iff, N.eqb_neq. tauto.
  - apply filter_other_ids.
  - unfold setCart. simpl. now rewrite filter_twice.
  - induction (cart st) as [|x c IH]; [reflexivity|]. simpl.
    destruct (CartEntry.id x =? id)%N; simpl; lia.
Qed.

Lemma map_set_twice (id : N) (q1 q2 : Z) (c : list CartEntry.t) :
  map (fun item => if (CartEntry.id item =? id)%N
                   then CartEntry.with_quantity q2 item else item)
    (map (fun item => if (CartEntry.id item =? id)%N
                      then CartEntry.with_quantity q1 item else item) c)
  = map (fun item => if (CartEntry.id item =? id)%N
                     then CartEntry.with_quantity q2 item else item) c.
Proof.
  rewrite map_map. apply map_ext. intros x.
  destruct (CartEntry.id x =? id)%N eqn:Hx; simpl; now rewrite Hx.
Qed.

Lemma filter_after_set (id : N) (q : Z) (c : list CartEntry.t) :
  filter (fun item => negb (CartEntry.id item =? id)%N)
    (map (fun item => if (CartEntry.id item =? id)%N
                      then CartEntry.with_quantity q item else item) c)
  = filter (fun item => negb (CartEntry.id item =? id)%N) c.
Proof.
  induction c as [|x c IH]; [reflexivity|]. simpl.
  destruct (CartEntry.id x =? id)%N eqn:Hx; simpl; rewrite Hx; simpl;
    now rewrite IH.
Qed.

Lemma filtered_has_no_id (id : N) (c : list CartEntry.t) :
  forall x, In x (filter (fun item => negb (CartEntry.id item =? id)%N) c) ->
            CartEntry.id x <> id.
Proof.
  intros x Hx. apply filter_In in Hx. destruct Hx as [_ Hx].
  now apply negb_true_iff, N.eqb_neq in Hx.
Qed.

(** X4.  [updateQuantity(id, q)] for an id that no entry has leaves the
    cart as it is, whatever [q].  Of two updates of the same id the later
    one decides when the first was positive; after a first update with
    [q1 <= 0] the entries are gone and a later positive update does not
    bring them back; and a later update with [q2 <= 0] always leaves what
    [removeFromCart(id)] leaves. *)
Theorem updateQuantity_absent_and_repeated :
  forall (id : N) (q1 q2 : Z) (st : State),
    ((forall x, In x (cart st) -> CartEntry.id x <> id) ->
       cart (updateQuantity id q1 st) = cart st)
    /\ (0 < q1 -> 0 < q2 ->
          cart (updateQuantity id q2 (updateQuantity id q1 st))
          = cart (updateQuantity id q2 st))
    /\ (q1 <= 0 ->
          cart (updateQuantity id q2 (updateQuantity id q1 st))
          = cart (removeFromCart id st))
    /\ (q2 <= 0 ->
          cart (updateQuantity id q2 (updateQuantity id q1 st))
          = cart (removeFromCart id st)).
Proof.
  intros id q1 q2 st. rewrite !updateQuantity_cart.
  unfold removeFromCart. simpl.
  split; [|split; [|split]].
  - intros Habsent. destruct (q1 <=? 0).
    + now apply filter_other_ids.
    + now apply map_other_ids.
  - intros H1 H2. apply Z.leb_gt in H1, H2. rewrite H1, H2.
    apply map_set_twice.
  - intros H1. apply Z.leb_le in H1. rewrite H1.
    destruct (q2 <=? 0).
    + apply filter_twice.
    + apply map_other_ids. apply filtered_has_no_id.
  - intros H2. apply Z.leb_le in H2. rewrite H2.
    destruct (q1 <=? 0).
    + apply filter_twice.
    + apply filter_after_set.
Qed.

Lemma updateQuantity_absent_and_repeated_witness :
  cart (updateQuantity 9 4 Sample.atCheckout) = cart Sample.atCheckout
  /\ cart (updateQuantity 5 3 (updateQuantity 5 0 Sample.atCheckout)) = [].
Proof.
  split.
  - refine (proj1 (updateQuantity_absent_and_repeated 9 4 4 Sample.atCheckout) _).
    intros x Hx. simpl in Hx. destruct Hx as [Hx | []]. subst x. discriminate.
  - refine (proj1 (proj2 (proj2
              (updateQuantity_absent_and_repeated 5 0 3 Sample.atCheckout))) _).
    lia.
Defined.

Lemma find_none_entriesFor (p : Product.t) (c : list CartEntry.t) :
  find (fun item => CartEntry.product_id item =? Product.id p) c = None
  <-> entriesFor (Product.id p) c = [].
Proof.
  unfold entriesFor. induction c as [|x c IH]; simpl; [tauto|].
  destruct (CartEntry.product_id x =? Product.id p); [|exact IH].
  split; discriminate.
Qed.

(** X5.  [addToCart(p)] on a cart with no entry for [p] raises the cart
    total by the price of [p] times 1: the total afterwards is the total
    before plus that product, as JS numbers.  The total of any cart
    followed by one more entry is the total of the cart plus the line of
    that entry. *)
Theorem addToCart_raises_total_by_unit_price :
  forall (rnd : N) (p : Product.t) (st : State),
    entriesFor (Product.id p) (cart st) = [] ->
    cartTotal (cart (fst (addToCart rnd p st)))
    = (cartTotal (cart st) + Product.price p * 1)%float
    /\ forall (c : list CartEntry.t) (x : CartEntry.t),
         cartTotal (c ++ [x])
         = (cartTotal c
            + CartEntry.price x * JS.ofZ (CartEntry.quantity x))%float.
Proof.
  intros rnd p st Hnone. split; [|apply cartTotal_snoc].
  apply find_none_entriesFor in Hnone.
  unfold addToCart. rewrite Hnone. cbn [fst cart setCart].
  rewrite cartTotal_snoc. reflexivity.
Qed.

Lemma addToCart_raises_total_by_unit_price_witness :
  cartTotal (cart (fst (addToCart 7 Sample.lamp Sample.atCheckout)))
  = (39.98 + 34.25 * 1)%float.
Proof.
  refine (eq_trans
            (proj1 (addToCart_raises_total_by_unit_price
                      7 Sample.lamp Sample.atCheckout eq_refl)) _).
  reflexivity.
Defined.

Lemma NoDup_map_injective {A B : Type} (f : A -> B) (l : list A) (x y : A) :
  NoDup (map f l) -> In x l -> In y l -> f x = f y -> x = y.
Proof.
  induction l as [|z l IH]; simpl; intros Hnd Hx Hy Hf; [contradiction|].
  inversion Hnd as [|? ? Hnotin Hnd']; subst.
  destruct Hx as [Hx | Hx]; destruct Hy as [Hy | Hy]; subst.
  - reflexivity.
  - exfalso. apply Hnotin. rewrite Hf. now apply in_map.
  - exfalso. apply Hnotin. rewrite <- Hf. now apply in_map.
  - now apply IH.
Qed.

Lemma with_own_quantity (item : CartEntry.t) :
  CartEntry.with_quantity (CartEntry.quantity item) item = item.
Proof. now destruct item. Qed.

Lemma set_own_quantity (item : CartEntry.t) (c : list CartEntry.t) :
  NoDup (map CartEntry.id c) -> In item c ->
  map (fun x => if (CartEntry.id x =? CartEntry.id item)%N
                then CartEntry.with_quantity (CartEntry.quantity item) x
                else x) c
  = c.
Proof.
  intros Hnd Hin. rewrite <- (map_id c) at 2.
  apply map_ext_in. intros x Hx.
  destruct (N.eqb_spec (CartEntry.id x) (CartEntry.id item)) as [E|E];
    [|reflexivity].
  assert (x = item) by now apply (NoDup_map_injective CartEntry.id c).
  subst x. apply with_own_quantity.
Qed.

(** X6.  In a cart whose entries have pairwise different ids, and for an
    entry whose quantity is below 2^53 (where adding and subtracting 1 is
    exact in the engine), the plus button followed by the minus button of
    the entry gives the cart back; so does minus followed by plus when the
    quantity is at least 2.  (At quantity 1 minus removes the entry.) *)
Theorem plus_and_minus_undo_each_other :
  forall (item : CartEntry.t) (st : State),
    NoDup (map CartEntry.id (cart st)) ->
    In item (cart st) ->
    1 <= CartEntry.quantity item < 2 ^ 53 ->
    cart (CartItem.onMinus
            (CartEntry.with_quantity (CartEntry.quantity item + 1) item)
            (CartItem.onPlus item st))
    = cart st
    /\ (2 <= CartEntry.quantity item ->
          cart (CartItem.onPlus
                  (CartEntry.with_quantity (CartEntry.quantity item - 1) item)
                  (CartItem.onMinus item st))
          = cart st)
    /\ (CartEntry.quantity item = 1 ->
          ~ In item (cart (CartItem.onMinus item st))
          /\ List.length (cart st)
             = S (List.length (cart (CartItem.onMinus item st)))).
Proof.
  intros item st Hnd Hin Hq.
  unfold CartItem.onMinus, CartItem.onPlus. simpl.
  rewrite !updateQuantity_cart.
  split; [|split].
  - replace (CartEntry.quantity item + 1 - 1) with (CartEntry.quantity item)
      by lia.
    destruct (Z.leb_spec (CartEntry.quantity item + 1) 0); [lia|].
    destruct (Z.leb_spec (CartEntry.quantity item) 0); [lia|].
    rewrite map_set_twice. now apply set_own_quantity.
  - intros Hq2.
    replace (CartEntry.quantity item - 1 + 1) with (CartEntry.quantity item)
      by lia.
    destruct (Z.leb_spec (CartEntry.quantity item - 1) 0); [lia|].
    destruct (Z.leb_spec (CartEntry.quantity item) 0); [lia|].
    rewrite map_set_twice. now apply set_own_quantity.
  - intros Hone. rewrite Hone. simpl. split.
    + intros Hstill. apply filtered_has_no_id in Hstill. congruence.
    + apply in_split in Hin. destruct Hin as [before [after Hcart]].
      rewrite Hcart in *. rewrite map_app in Hnd. simpl in Hnd.
      apply NoDup_remove in Hnd. destruct Hnd as [_ Hnotin].
      rewrite filter_app. simpl. rewrite N.eqb_refl. simpl.
      rewrite !filter_other_ids.
      * rewrite !length_app. simpl. lia.
      * intros x Hx E. apply Hnotin. apply in_or_app. right.
        rewrite <- E. now apply in_map.
      * intros x Hx E. apply Hnotin. apply in_or_app. left.
        rewrite <- E. now apply in_map.
Qed.

Lemma plus_and_minus_undo_each_other_witness :
  cart (CartItem.onMinus
          (CartEntry.mk 5 1 (JS.lit "Red Shirt") 19.99%float
              (Some (JS.lit "/img/shirt-1.jpg")) 3)
          (CartItem.onPlus
             (CartEntry.mk 5 1 (JS.lit "Red Shirt") 19.99%float
                 (Some (JS.lit "/img/shirt-1.jpg")) 2)
             Sample.atCheckout))
  = cart Sample.atCheckout.
Proof.
  refine (proj1 (plus_and_minus_undo_each_other
                   (CartEntry.mk 5 1 (JS.lit "Red Shirt") 19.99%float
                       (Some (JS.lit "/img/shirt-1.jpg")) 2)
                   Sample.atCheckout _ _ _)).
  - simpl. constructor; [intros [] | constructor].
  - simpl. now left.
  - simpl. lia.
Defined.

(** ** More on the carousel *)

Lemma prevImage_selectedProduct (st : State) :
  selectedProduct (prevImage st) = selectedProduct st.
Proof.
  unfold prevImage. destruct (selectedProduct st) eqn:Hsel; simpl; congruence.
Qed.

Lemma iter_next_selectedProduct (k : nat) (st : State) :
  selectedProduct (Nat.iter k nextImage st) = selectedProduct st.
Proof.
  induction k as [|k IH]; [reflexivity|].
  now rewrite Nat.iter_succ, nextImage_selectedProduct.
Qed.

Lemma iter_prev_selectedProduct (k : nat) (st : State) :
  selectedProduct (Nat.iter k prevImage st) = selectedProduct st.
Proof.
  induction k as [|k IH]; [reflexivity|].
  now rewrite Nat.iter_succ, prevImage_selectedProduct.
Qed.

(** X7.  On a product with [n >= 1] images and an index [i] in range,
    [k] presses of next lead to [(i + k) mod n] and [k] presses of previous
    to [(i - k) mod n]; so [n] presses either way come back to [i], next
    after previous comes back to [i], and the index never leaves
    [0 .. n-1]. *)
Theorem carousel_cycles :
  forall (st : State) (product : Product.t) (i : Z) (k : nat),
    selectedProduct st = Some product ->
    let n := Z.of_nat (List.length (getProductImages product)) in
    1 <= n ->
    currentImageIndex st = JS.Num i ->
    0 <= i < n ->
    currentImageIndex (Nat.iter k nextImage st) = JS.Num ((i + Z.of_nat k) mod n)
    /\ currentImageIndex (Nat.iter k prevImage st)
       = JS.Num ((i - Z.of_nat k) mod n)
    /\ currentImageIndex
         (Nat.iter (List.length (getProductImages product)) nextImage st)
       = JS.Num i
    /\ currentImageIndex
         (Nat.iter (List.length (getProductImages product)) prevImage st)
       = JS.Num i
    /\ currentImageIndex (nextImage (prevImage st)) = JS.Num i.
Proof.
  intros st product i k Hsel n Hpos Hidx Hi.
  assert (Hnext : forall j : nat,
             currentImageIndex (Nat.iter j nextImage st)
             = JS.Num ((i + Z.of_nat j) mod n)).
  { induction j as [|j IH].
    - simpl. rewrite Hidx, Z.add_0_r, Z.mod_small; [reflexivity | lia].
    - rewrite Nat.iter_succ.
      rewrite (nextImage_index _ product ((i + Z.of_nat j) mod n) n);
        try assumption; try reflexivity.
      + f_equal. rewrite Zplus_mod_idemp_l. f_equal. lia.
      + now rewrite iter_next_selectedProduct.
      + apply Z.mod_pos_bound. lia. }
  assert (Hprev : forall j : nat,
             currentImageIndex (Nat.iter j prevImage st)
             = JS.Num ((i - Z.of_nat j) mod n)).
  { induction j as [|j IH].
    - simpl. rewrite Hidx, Z.sub_0_r, Z.mod_small; [reflexivity | lia].
    - rewrite Nat.iter_succ.
      rewrite (prevImage_index _ product ((i - Z.of_nat j) mod n) n);
        try assumption; try reflexivity.
      + f_equal.
        replace ((i - Z.of_nat j) mod n - 1 + n)
          with ((i - Z.of_nat j) mod n + (n - 1)) by lia.
        rewrite Zplus_mod_idemp_l.
        replace (i - Z.of_nat j + (n - 1))
          with (i - Z.of_nat (S j) + 1 * n) by lia.
        apply Z_mod_plus_full.
      + now rewrite iter_prev_selectedProduct.
      + apply Z.mod_pos_bound. lia. }
  split; [apply Hnext|]. split; [apply Hprev|]. split; [|split].
  - rewrite Hnext. fold n. f_equal.
    replace (i + n) with (i + 1 * n) by lia.
    rewrite Z_mod_plus_full. apply Z.mod_small. lia.
  - rewrite Hprev. fold n. f_equal.
    replace (i - n) with (i + (-1) * n) by lia.
    rewrite Z_mod_plus_full. apply Z.mod_small. lia.
  - assert (Hrange : 0 <= (i - 1 + n) mod n < n)
      by (apply Z.mod_pos_bound; lia).
    rewrite (nextImage_index _ product ((i - 1 + n) mod n) n);
      try assumption; try reflexivity.
    + f_equal. rewrite Zplus_mod_idemp_l.
      replace (i - 1 + n + 1) with (i + 1 * n) by lia.
      rewrite Z_mod_plus_full. apply Z.mod_small. lia.
    + now rewrite prevImage_selectedProduct.
    + now apply (prevImage_index st product i n).
Qed.

Lemma carousel_cycles_witness :
  currentImageIndex
    (Nat.iter 3 nextImage
       (initialState |> setSelectedProduct (Some Sample.redShirt)
                     |> setCurrentImageIndex (fun _ => JS.Num 1)))
  = JS.Num 1.
Proof.
  refine (proj1 (proj2 (proj2
            (carousel_cycles
               (initialState |> setSelectedProduct (Some Sample.redShirt)
                             |> setCurrentImageIndex (fun _ => JS.Num 1))
               Sample.redShirt 1 0 eq_refl _ eq_refl _)))).
  - simpl. lia.
  - simpl. lia.
Defined.

(** ** The product card *)

(** X8.  On a product card the Add to Cart button is disabled exactly when
    the stock is 0, and the badge reads in stock exactly when the stock is
    positive: the two disagree exactly for a negative stock, which is shown
    as out and can still be added.  On the catalog panel the card's button
    leads to a transition exactly when it is not disabled. *)
Theorem card_button_and_badge {platform : JS.Platform} :
  forall (st : State) (db : Server.Store) (i : nat) (rnd : N)
         (product : Product.t),
    render st = Some Catalog ->
    nth_error (filteredProducts st) i = Some product ->
    (ProductCard.addDisabled product = true <-> Product.stock product = 0)
    /\ (ProductCard.stockBadge product = (9989%N :: JS.lit " In Stock")
        <-> 0 < Product.stock product)
    /\ (ProductCard.stockBadge product = (10060%N :: JS.lit " Out")
        /\ ProductCard.addDisabled product = false
        <-> Product.stock product < 0)
    /\ (step (CardAddToCart i rnd) (st, db) <> None
        <-> ProductCard.addDisabled product = false)
    /\ (ProductCard.addDisabled product = false ->
          step (CardAddToCart i rnd) (st, db)
          = Some (filterEffect (fst (addToCart rnd product st)), db)).
Proof.
  intros st db i rnd product Hrender Hnth.
  unfold ProductCard.addDisabled, ProductCard.stockBadge.
  unfold step, handle. rewrite Hrender, Hnth. unfold guard.
  destruct (Z.eqb_spec (Product.stock product) 0) as [E|E];
    destruct (Z.ltb_spec 0 (Product.stock product)) as [L|L];
    simpl; repeat split; intros; try lia; try congruence;
    try discriminate; intuition (try discriminate; try lia).
Qed.

Lemma card_button_and_badge_witness :
  step (platform := Sample.platform) (CardAddToCart 0 5)
       (initialState |> setProducts [Sample.redShirt]
                     |> setFilteredProducts [Sample.redShirt]
                     |> setLoading false, Sample.db)
  <> None.
Proof.
  refine (proj2 (proj1 (proj2 (proj2 (proj2
            (card_button_and_badge
               (initialState |> setProducts [Sample.redShirt]
                             |> setFilteredProducts [Sample.redShirt]
                             |> setLoading false)
               Sample.db 0 5 Sample.redShirt eq_refl eq_refl))))) eq_refl).
Defined.

(** ** More on the search *)

Lemma sameIgnoringCase_whiteSpace (c d : N) :
  sameIgnoringCase c d -> (In c whiteSpaceCodes <-> In d whiteSpaceCodes).
Proof.
  intros [H | [H | H]]; [now subst d | |];
    apply table_letters in H; rewrite <- !isWhiteSpace_iff;
    unfold JS.isWhiteSpace;
    rewrite !orb_true_iff, !andb_true_iff, !N.leb_le, !N.eqb_eq; lia.
Qed.

Lemma equalIgnoringCase_blank (a b : JS.string) :
  equalIgnoringCase a b -> (blank a <-> blank b).
Proof.
  unfold equalIgnoringCase, blank.
  induction 1 as [|x y a b Hxy _ IH]; [tauto|].
  apply sameIgnoringCase_whiteSpace in Hxy.
  split; intros H; inversion H; subst; constructor; tauto.
Qed.

Lemma lowerAscii_twice (c : N) :
  JS.lowerAscii (JS.lowerAscii c) = JS.lowerAscii c.
Proof.
  unfold JS.lowerAscii.
  destruct (N.leb_spec 65 c), (N.leb_spec c 90); simpl;
    destruct (N.leb_spec 65 (c + 32)), (N.leb_spec (c + 32) 90); simpl;
    try reflexivity; try lia;
    destruct (N.leb_spec 65 c), (N.leb_spec c 90); simpl; lia.
Qed.

Lemma lowerAscii_isAscii (s : JS.string) :
  JS.isAscii s -> JS.isAscii (map JS.lowerAscii s).
Proof.
  unfold JS.isAscii. induction 1 as [|c s Hc _ IH]; constructor; [|exact IH].
  unfold JS.lowerAscii.
  destruct (N.leb_spec 65 c), (N.leb_spec c 90); simpl; lia.
Qed.

(** X9.  For search terms of ASCII characters, the filtered list does not
    depend on the case of the letters of the term: two terms that differ
    in case only give the same list, in particular a term and its
    lower-case form; nor, for product names of ASCII characters, on the
    case of the letters of the names, as far as the choice of products
    goes. *)
Theorem searchFilter_ignores_case_of_term {platform : JS.Platform} :
  forall (catalog : list Product.t) (cat t1 t2 : JS.string),
    JS.isAscii t1 ->
    JS.isAscii t2 ->
    equalIgnoringCase t1 t2 ->
    searchFilter catalog cat t1 = searchFilter catalog cat t2
    /\ searchFilter catalog cat (JS.toLowerCase t1) = searchFilter catalog cat t1
    /\ forall p q : Product.t,
         JS.isAscii (Product.name p) ->
         JS.isAscii (Product.name q) ->
         equalIgnoringCase (Product.name p) (Product.name q) ->
         Product.category p = Product.category q ->
         (In p (searchFilter [p] cat t1) <-> In q (searchFilter [q] cat t1)).
Proof.
  intros catalog cat t1 t2 H1 H2 Heq.
  assert (Hsame : forall a b,
             JS.isAscii a -> JS.isAscii b -> equalIgnoringCase a b ->
             searchFilter catalog cat a = searchFilter catalog cat b).
  { intros a b Ha Hb Hab. unfold searchFilter.
    assert (Htrim : JS.truthy (JS.trim a) = JS.truthy (JS.trim b)).
    { apply equalIgnoringCase_blank in Hab.
      destruct (JS.truthy (JS.trim a)) eqn:Ea;
        destruct (JS.truthy (JS.trim b)) eqn:Eb; try reflexivity.
      - apply truthy_trim_not in Ea. apply truthy_trim in Eb. tauto.
      - apply truthy_trim in Ea. apply truthy_trim_not in Eb. tauto. }
    apply equalIgnoringCase_iff in Hab.
    rewrite Htrim, (JS.toLowerCase_ascii a Ha), (JS.toLowerCase_ascii b Hb), Hab.
    reflexivity. }
  split; [now apply Hsame|]. split.
  - rewrite (JS.toLowerCase_ascii t1 H1).
    apply Hsame; [now apply lowerAscii_isAscii | exact H1 |].
    apply equalIgnoringCase_iff. rewrite map_map.
    apply map_ext. intros c. apply lowerAscii_twice.
  - intros p q Hp Hq Hname Hcat. apply equalIgnoringCase_iff in Hname.
    rewrite !searchFilter_unfold, !filter_In. simpl.
    rewrite (JS.toLowerCase_ascii _ Hp), (JS.toLowerCase_ascii _ Hq).
    rewrite Hname, Hcat.
    destruct (JS.eqb cat (JS.lit "All") || JS.eqb (Product.category q) cat);
      simpl;
      destruct (negb (JS.truthy (JS.trim t1))
                || JS.includes (map JS.lowerAscii (Product.name q))
                     (JS.toLowerCase t1));
      simpl; intuition congruence.
Qed.

Lemma searchFilter_ignores_case_of_term_witness :
  searchFilter (platform := Sample.platform)
    [Sample.redShirt; Sample.mug] (JS.lit "All") (JS.lit "RED")
  = searchFilter (platform := Sample.platform)
      [Sample.redShirt; Sample.mug] (JS.lit "All") (JS.lit "red").
Proof.
  refine (proj1 (searchFilter_ignores_case_of_term
                   [Sample.redShirt; Sample.mug] (JS.lit "All")
                   (JS.lit "RED") (JS.lit "red") _ _ _)).
  - unfold JS.isAscii. repeat (apply Forall_cons; [reflexivity|]). apply Forall_nil.
  - unfold JS.isAscii. repeat (apply Forall_cons; [reflexivity|]). apply Forall_nil.
  - unfold equalIgnoringCase.
    repeat (apply Forall2_cons; [unfold sameIgnoringCase; in_table|]).
    apply Forall2_nil.
Defined.

(** ** Numerals typed into the quantity field *)

Ltac digits_from n d :=
  lazymatch n with
  | O => idtac
  | S ?m => destruct d as [|d]; [ | digits_from m d ]
  end.

Ltac each_digit d :=
  digits_from 10%nat d; [ .. | exfalso; lia ].

Lemma digitValue_digitChar (d : nat) :
  (d < 10)%nat -> JS.digitValue (digitChar d) = Some (Z.of_nat d).
Proof. intros Hd. each_digit d; reflexivity. Qed.

Lemma parseDigits_numeral (ds : list nat) (acc : option Z) :
  Forall (fun d => (d < 10)%nat) ds ->
  JS.parseDigits 10 (numeral ds) acc
  = match ds with
    | [] => acc
    | _ :: _ =>
        Some (fold_left (fun a d => 10 * a + Z.of_nat d) ds
                (match acc with Some a => a | None => 0 end))
    end.
Proof.
  intros Hds. revert acc. induction Hds as [|d ds Hd Hds IH]; intros acc.
  - reflexivity.
  - unfold numeral. cbn [map JS.parseDigits]. fold (numeral ds).
    rewrite (digitValue_digitChar d Hd).
    destruct (Z.ltb_spec (Z.of_nat d) 10); [|lia].
    rewrite IH. destruct ds; reflexivity.
Qed.

Lemma parseInt_numeral (ds : list nat) :
  ds <> [] ->
  Forall (fun d => (d < 10)%nat) ds ->
  JS.parseInt (numeral ds) = JS.Num (valueOf ds).
Proof.
  intros Hne Hds. destruct ds as [|d ds]; [contradiction|].
  inversion Hds as [|? ? Hd Hrest]; subst.
  assert (Hdigits := parseDigits_numeral (d :: ds) None Hds).
  unfold JS.parseInt.
  assert (Htrim : JS.trimStart (numeral (d :: ds)) = numeral (d :: ds)).
  { clear - Hd. each_digit d; reflexivity. }
  rewrite Htrim.
  assert (Hsign : match numeral (d :: ds) with
                  | c :: r =>
                      if (c =? 45)%N then (-1, r)
                      else if (c =? 43)%N then (1, r)
                      else (1, numeral (d :: ds))
                  | [] => (1, numeral (d :: ds))
                  end = (1, numeral (d :: ds))).
  { clear - Hd. each_digit d; reflexivity. }
  rewrite Hsign.
  assert (Hradix : match numeral (d :: ds) with
                   | c :: d2 :: r =>
                       if ((c =? 48) && ((d2 =? 120) || (d2 =? 88)))%N
                       then (16, r)
                       else (10, numeral (d :: ds))
                   | _ => (10, numeral (d :: ds))
                   end = (10, numeral (d :: ds))).
  { destruct ds as [|d2 ds]; [reflexivity|].
    inversion Hrest as [|? ? Hd2 _]; subst.
    unfold numeral. cbn [map].
    replace ((digitChar d2 =? 120) || (digitChar d2 =? 88))%N with false.
    - now rewrite andb_false_r.
    - clear - Hd2. each_digit d2; reflexivity. }
  rewrite Hradix, Hdigits. unfold valueOf. f_equal. lia.
Qed.

(** X10.  A decimal numeral typed into the quantity field, of a value [n]
    below 2^53 (where the engine reads an integer exactly), is read as
    [n]: when [n > 0] every entry with the id of the item gets the
    quantity [n] and the others stay, with the cart as long as before;
    when [n = 0] (as for "0" or "000") the quantity becomes 1. *)
Theorem typed_numeral_sets_quantity :
  forall (item : CartEntry.t) (st : State) (ds : list nat),
    ds <> [] ->
    Forall (fun d => (d < 10)%nat) ds ->
    valueOf ds < 2 ^ 53 ->
    let n := valueOf ds in
    JS.parseInt (numeral ds) = JS.Num n
    /\ 0 <= n
    /\ cart (CartItem.onChange item (numeral ds) st)
       = map (fun x => if (CartEntry.id x =? CartEntry.id item)%N
                       then CartEntry.with_quantity (if n =? 0 then 1 else n) x
                       else x)
           (cart st)
    /\ List.length (cart (CartItem.onChange item (numeral ds) st))
       = List.length (cart st).
Proof.
  intros item st ds Hne Hds Hsafe n.
  assert (Hparse := parseInt_numeral ds Hne Hds). fold n in Hparse.
  assert (Hpos : 0 <= n).
  { subst n. unfold valueOf.
    assert (Hgen : forall l a, 0 <= a ->
               0 <= fold_left (fun acc d => 10 * acc + Z.of_nat d) l a).
    { induction l as [|d l IH]; intros a Ha; cbn [fold_left]; [exact Ha|].
      apply IH. lia. }
    apply Hgen. lia. }
  split; [exact Hparse|]. split; [exact Hpos|].
  assert (Hcart : cart (CartItem.onChange item (numeral ds) st)
                  = map (fun x => if (CartEntry.id x =? CartEntry.id item)%N
                                  then CartEntry.with_quantity
                                         (if n =? 0 then 1 else n) x
                                  else x)
                      (cart st)).
  { unfold CartItem.onChange. rewrite Hparse, updateQuantity_cart. simpl.
    destruct (Z.eqb_spec n 0) as [E|E]; simpl; [reflexivity|].
    destruct (Z.leb_spec n 0); [lia | reflexivity]. }
  split; [exact Hcart|]. rewrite Hcart. apply length_map.
Qed.

Lemma typed_numeral_sets_quantity_witness :
  cart (CartItem.onChange
          (CartEntry.mk 5 1 (JS.lit "Red Shirt") 19.99%float
              (Some (JS.lit "/img/shirt-1.jpg")) 2)
          (JS.lit "12") Sample.atCheckout)
  = [CartEntry.mk 5 1 (JS.lit "Red Shirt") 19.99%float
      (Some (JS.lit "/img/shirt-1.jpg")) 12].
Proof.
  refine (eq_trans
            (proj1 (proj2 (proj2
               (typed_numeral_sets_quantity
                  (CartEntry.mk 5 1 (JS.lit "Red Shirt") 19.99%float
                      (Some (JS.lit "/img/shirt-1.jpg")) 2)
                  Sample.atCheckout [1%nat; 2%nat] _ _ _)))) eq_refl).
  - discriminate.
  - repeat constructor.
  - reflexivity.
Defined.

(** ** What holds in every reachable state *)

Lemma render_some (st : State) (P : Panel) :
  render st = Some P -> loading st = false /\ panel st = P.
Proof.
  unfold render. destruct (loading st); [discriminate|].
  intros H. inversion H. tauto.
Qed.

Lemma render_none (st : State) : render st = None -> loading st = true.
Proof. unfold render. now destruct (loading st). Qed.

Lemma guard_some {A : Type} (b : bool) (x y : A) :
  guard b x = Some y -> b = true /\ x = y.
Proof. destruct b; simpl; intros H; inversion H; tauto. Qed.

Lemma moves_loading (st st' : State) :
  moves st st' -> loading st' = false \/ loading st' = loading st.
Proof.
  intros H. destruct H; try (now left); try (now right).
  - right. unfold addToCart. now destruct (find _ (cart st)).
  - right. unfold prevImage. now rewrite H.
  - right. unfold nextImage. now rewrite H.
  - right. unfold buyNow. now destruct (find _ (cart st)).
  - right. unfold updateQuantity. now destruct (q <=? 0).
  - right. now destruct response.
Qed.

Lemma handle_moves (e : Event) (st st' : State) (db db' : Server.Store) :
  handle e (st, db) = Some (st', db') ->
  moves st st' /\ loading st' = false.
Proof.
  intros H.
  assert (Hgoal : moves st st' /\ (loading st = false \/ loading st' = false)).
  { unfold handle in H.
    destruct (render st) as [P|] eqn:Hr.
    - apply render_some in Hr. destruct Hr as [Hl HP].
      split; [|now left].
      destruct e; try discriminate H;
        try (destruct P; try discriminate H);
        try (inversion H; subst; constructor; fail).
      + (* category *)
        apply guard_some in H. destruct H as [_ H]. inversion H; subst.
        constructor.
      + (* add from a card *)
        destruct (nth_error (filteredProducts st) i) as [p|] eqn:Hnth;
          [|discriminate].
        apply guard_some in H. destruct H as [Hstock H]. inversion H; subst.
        apply moved_add.
        * left. now apply nth_error_In with i.
        * apply negb_true_iff, Z.eqb_neq in Hstock. exact Hstock.
      + (* view details *)
        destruct (nth_error (filteredProducts st) i) as [p|] eqn:Hnth;
          [|discriminate].
        inversion H; subst. apply moved_view. now apply nth_error_In with i.
      + (* previous image *)
        destruct (selectedProduct st) as [p|] eqn:Hsel; [|discriminate].
        apply guard_some in H. destruct H as [Hlen H]. inversion H; subst.
        apply (moved_prev st p); [exact Hsel|]. now apply Nat.ltb_lt.
      + (* next image *)
        destruct (selectedProduct st) as [p|] eqn:Hsel; [|discriminate].
        apply guard_some in H. destruct H as [Hlen H]. inversion H; subst.
        apply (moved_next st p); [exact Hsel|]. now apply Nat.ltb_lt.
      + (* indicator *)
        destruct (selectedProduct st) as [p|] eqn:Hsel; [|discriminate].
        apply guard_some in H. destruct H as [Hlen H]. inversion H; subst.
        apply andb_true_iff in Hlen. destruct Hlen as [_ Hidx].
        apply (moved_indicator st p); [exact Hsel|]. now apply Nat.ltb_lt.
      + (* add from the detail panel *)
        destruct (selectedProduct st) as [p|] eqn:Hsel; [|discriminate].
        apply guard_some in H. destruct H as [Hstock H]. inversion H; subst.
        apply moved_add; [now right|].
        apply negb_true_iff, Z.eqb_neq in Hstock. exact Hstock.
      + (* buy now *)
        destruct (selectedProduct st) as [p|] eqn:Hsel; [|discriminate].
        apply guard_some in H. destruct H as [Hstock H]. inversion H; subst.
        apply moved_buy; [exact Hsel|].
        apply negb_true_iff, Z.eqb_neq in Hstock. exact Hstock.
      + (* minus *)
        destruct (nth_error (cart st) i) as [item|]; [|discriminate].
        inversion H; subst. now apply moved_update.
      + (* quantity field *)
        destruct (nth_error (cart st) i) as [item|]; [|discriminate].
        inversion H; subst. now apply moved_update.
      + (* plus *)
        destruct (nth_error (cart st) i) as [item|]; [|discriminate].
        inversion H; subst. now apply moved_update.
      + (* remove *)
        destruct (nth_error (cart st) i) as [item|]; [|discriminate].
        inversion H; subst.
        change (CartItem.onRemove item st)
          with (updateQuantity (CartEntry.id item) 0 st).
        now apply moved_update.
      + (* proceed *)
        apply guard_some in H. destruct H as [Hlen H]. inversion H; subst.
        apply moved_proceed. intros Hnil. rewrite Hnil in Hlen. discriminate.
      + (* place order *)
        unfold handleCheckout in H.
        destruct (negb (JS.truthy (JS.trim (address st)))).
        * inversion H; subst. apply (moved_settled st' st' FetchThrows).
        * destruct (fetchCheckout net (checkoutData st) db) as [response db1].
          destruct (afterFetch st response st) as [st1 alerts] eqn:Hafter.
          inversion H; subst.
          change st' with (fst (st', alerts)). rewrite <- Hafter.
          apply moved_settled.
    - apply render_none in Hr.
      destruct e; try discriminate H; inversion H; subst.
      + split; [now apply moved_fetched | now right].
      + split; [apply moved_fetch_failed | now right]. }
  destruct Hgoal as [Hm Hl]. split; [exact Hm|].
  destruct Hl as [Hl|Hl]; [|exact Hl].
  destruct (moves_loading st st' Hm) as [H'|H']; congruence.
Qed.

Lemma buyNow_cart (rnd : N) (p : Product.t) (st : State) :
  cart (buyNow rnd p st) = cart (fst (addToCart rnd p st)).
Proof. unfold buyNow, addToCart. now destruct (find _ (cart st)). Qed.

Lemma addToCart_frame (rnd : N) (p : Product.t) (st : State) :
  fst (addToCart rnd p st) = (st |> setCart (cart (fst (addToCart rnd p st)))).
Proof. unfold addToCart. now destruct (find _ (cart st)). Qed.

Lemma addToCart_nonempty (rnd : N) (p : Product.t) (st : State) :
  cart (fst (addToCart rnd p st)) <> [].
Proof.
  unfold addToCart.
  destruct (find _ (cart st)) as [found|] eqn:Hfind; simpl.
  - apply find_some in Hfind. destruct Hfind as [Hin _].
    destruct (cart st); [contradiction | discriminate].
  - destruct (cart st); discriminate.
Qed.

Lemma mirrors_with_quantity (p : Product.t) (q : Z) (item : CartEntry.t) :
  mirrors p item -> mirrors p (CartEntry.with_quantity q item).
Proof. unfold mirrors. simpl. tauto. Qed.

Lemma addToCart_cartOK (rnd : N) (p : Product.t) (st : State)
    (ps : list Product.t) :
  cartOK ps (cart st) -> In p ps -> Product.stock p <> 0 ->
  cartOK ps (cart (fst (addToCart rnd p st))).
Proof.
  intros [Hall Hnd] Hin Hstock. unfold addToCart.
  destruct (find _ (cart st)) as [found|] eqn:Hfind; simpl; split.
  - apply Forall_map. eapply Forall_impl; [|exact Hall].
    intros item [Hq [p' [Hp' [Hm Hs]]]]. simpl.
    destruct (CartEntry.product_id item =? Product.id p).
    + split; [simpl; lia|]. exists p'. split; [exact Hp'|].
      split; [now apply mirrors_with_quantity | exact Hs].
    + split; [exact Hq|]. now exists p'.
  - rewrite map_map.
    erewrite map_ext; [exact Hnd|]. intros item. simpl.
    now destruct (CartEntry.product_id item =? Product.id p).
  - apply Forall_app. split; [exact Hall|].
    constructor; [|constructor]. simpl. split; [lia|].
    exists p. unfold mirrors. simpl. tauto.
  - rewrite map_app. simpl. apply NoDup_app; [exact Hnd | | ].
    + constructor; [intros [] | constructor].
    + intros pid Hpid [Heq | []]. subst pid.
      apply in_map_iff in Hpid. destruct Hpid as [item [Hid Hitem]].
      apply find_none with (x := item) in Hfind; [|exact Hitem].
      simpl in Hfind. rewrite Hid, Z.eqb_refl in Hfind. discriminate.
Qed.

Lemma NoDup_map_filter {A B : Type} (f : A -> B) (g : A -> bool) (l : list A) :
  NoDup (map f l) -> NoDup (map f (filter g l)).
Proof.
  induction l as [|x l IH]; simpl; intros Hnd; [constructor|].
  inversion Hnd as [|? ? Hnotin Hnd']; subst.
  destruct (g x); simpl; [|now apply IH].
  constructor; [|now apply IH].
  intros Hin. apply Hnotin. apply in_map_iff in Hin.
  destruct Hin as [y [Hy Hin]]. apply filter_In in Hin.
  rewrite <- Hy. apply in_map. tauto.
Qed.

Lemma updateQuantity_cartOK (id : N) (q : Z) (st : State)
    (ps : list Product.t) :
  cartOK ps (cart st) -> cartOK ps (cart (updateQuantity id q st)).
Proof.
  intros [Hall Hnd]. rewrite updateQuantity_cart.
  destruct (Z.leb_spec q 0) as [Hq|Hq]; split.
  - apply Forall_forall. intros x Hx. apply filter_In in Hx.
    destruct Hx as [Hx _]. revert x Hx. now apply Forall_forall.
  - now apply NoDup_map_filter.
  - apply Forall_map. eapply Forall_impl; [|exact Hall].
    intros item [Hqi [p [Hp [Hm Hs]]]]. simpl.
    destruct (CartEntry.id item =? id)%N.
    + split; [simpl; lia|]. exists p. split; [exact Hp|].
      split; [now apply mirrors_with_quantity | exact Hs].
    + split; [exact Hqi|]. now exists p.
  - rewrite map_map.
    erewrite map_ext; [exact Hnd|]. intros item. simpl.
    now destruct (CartEntry.id item =? id)%N.
Qed.

Lemma updateQuantity_frame (id : N) (q : Z) (st : State) :
  updateQuantity id q st = (st |> setCart (cart (updateQuantity id q st))).
Proof. unfold updateQuantity, removeFromCart. now destruct (q <=? 0). Qed.

Lemma panel_cart_flags (st : State) :
  panel st = Cart -> looselyExclusive st -> showCheckout st = false.
Proof.
  unfold panel, looselyExclusive.
  destruct (orderConfirmation st), (showOrders st), (selectedProduct st),
    (showCart st), (showCheckout st); simpl; intros H [H1 H2];
    try discriminate; try reflexivity; lia.
Qed.

Lemma indexOK_next (st : State) (p : Product.t) :
  selectedProduct st = Some p ->
  (1 < List.length (getProductImages p))%nat ->
  indexOK st -> indexOK (nextImage st).
Proof.
  intros Hsel Hlen [i [Hi [Hpos Hrange]]].
  specialize (Hrange p Hsel).
  set (n := Z.of_nat (List.length (getProductImages p))) in *.
  assert (Hn : 1 < n) by (subst n; lia).
  exists ((i + 1) mod n).
  rewrite (nextImage_index st p i n Hsel eq_refl); [|lia|exact Hi|lia].
  split; [reflexivity|].
  assert (Hb : 0 <= (i + 1) mod n < n) by (apply Z.mod_pos_bound; lia).
  split; [lia|]. intros p' Hp'.
  rewrite nextImage_selectedProduct, Hsel in Hp'. inversion Hp'; subst p'.
  fold n. lia.
Qed.

Lemma indexOK_prev (st : State) (p : Product.t) :
  selectedProduct st = Some p ->
  (1 < List.length (getProductImages p))%nat ->
  indexOK st -> indexOK (prevImage st).
Proof.
  intros Hsel Hlen [i [Hi [Hpos Hrange]]].
  specialize (Hrange p Hsel).
  set (n := Z.of_nat (List.length (getProductImages p))) in *.
  assert (Hn : 1 < n) by (subst n; lia).
  exists ((i - 1 + n) mod n).
  rewrite (prevImage_index st p i n Hsel eq_refl); [|lia|exact Hi|lia].
  split; [reflexivity|].
  assert (Hb : 0 <= (i - 1 + n) mod n < n) by (apply Z.mod_pos_bound; lia).
  split; [lia|]. intros p' Hp'.
  rewrite prevImage_selectedProduct, Hsel in Hp'. inversion Hp'; subst p'.
  fold n. lia.
Qed.

Lemma carousel_frame (st : State) :
  (products (nextImage st) = products st
   /\ filteredProducts (nextImage st) = filteredProducts st
   /\ cart (nextImage st) = cart st
   /\ selectedProduct (nextImage st) = selectedProduct st
   /\ showCheckout (nextImage st) = showCheckout st)
  /\ (products (prevImage st) = products st
      /\ filteredProducts (prevImage st) = filteredProducts st
      /\ cart (prevImage st) = cart st
      /\ selectedProduct (prevImage st) = selectedProduct st
      /\ showCheckout (prevImage st) = showCheckout st).
Proof.
  unfold nextImage, prevImage.
  destruct (selectedProduct st) eqn:Hsel; simpl; rewrite ?Hsel; tauto.
Qed.

Ltac keep_index Hidx :=
  let i := fresh "i" in
  let Hi := fresh "Hi" in
  let Hpos := fresh "Hpos" in
  let Hrange := fresh "Hrange" in
  destruct Hidx as [i [Hi [Hpos Hrange]]];
  exists i; simpl; split; [exact Hi|]; split; [exact Hpos|];
  intros ? ?; try discriminate; auto.

Lemma moves_stateOK (st st' : State) :
  looselyExclusive st -> stateOK st -> moves st st' ->
  loading st' = false -> stateOK st'.
Proof.
  intros Hex [Hload [Hincl [Hcart [Hsel [Hco Hidx]]]]] Hm Hl'.
  unfold stateOK. split; [intros Habs; congruence|]. clear Hl'.
  destruct Hm.
  - (* fetched *)
    destruct (Hload H) as [Hc [Hs Hk]].
    simpl. rewrite Hc, Hs, Hk.
    split; [apply incl_refl|]. split; [split; constructor|].
    split; [discriminate|]. split; [discriminate|].
    destruct Hidx as [i [Hi [Hpos _]]]. exists i. simpl.
    split; [exact Hi|]. split; [exact Hpos|]. rewrite Hs. discriminate.
  - simpl. repeat split; try assumption; try apply Hcart; try (keep_index Hidx).
  - simpl. repeat split; try assumption; try apply Hcart;
      try discriminate; try (keep_index Hidx).
  - simpl. repeat split; try assumption; try apply Hcart;
      try discriminate; try (keep_index Hidx).
  - simpl. repeat split; try assumption; try apply Hcart;
      try discriminate; try (keep_index Hidx).
  - simpl. repeat split; try assumption; try apply Hcart;
      try discriminate; try (keep_index Hidx).
  - simpl. repeat split; try assumption; try apply Hcart; try (keep_index Hidx).
  - simpl. repeat split; try assumption; try apply Hcart; try (keep_index Hidx).
  - (* add *)
    rewrite addToCart_frame. simpl.
    assert (Hp : In p (products st)).
    { destruct H as [H | H]; [now apply Hincl | now apply Hsel]. }
    split; [exact Hincl|]. split; [now apply addToCart_cartOK|].
    split; [exact Hsel|]. split; [intros _; apply addToCart_nonempty|].
    keep_index Hidx.
  - (* view *)
    simpl. split; [exact Hincl|]. split; [exact Hcart|].
    split; [intros p' Hp'; inversion Hp'; subst; now apply Hincl|].
    split; [exact Hco|].
    exists 0. simpl. split; [reflexivity|]. split; [lia|]. intros; lia.
  - simpl. repeat split; try assumption; try apply Hcart;
      try discriminate; try (keep_index Hidx).
  - (* previous *)
    assert (Hi' := indexOK_prev st p H H0 Hidx).
    destruct (carousel_frame st) as [_ [Hf1 [Hf2 [Hf3 [Hf4 Hf5]]]]].
    rewrite Hf1, Hf2, Hf3, Hf4, Hf5.
    split; [exact Hincl|]. split; [exact Hcart|].
    split; [exact Hsel|]. split; [exact Hco | exact Hi'].
  - (* next *)
    assert (Hi' := indexOK_next st p H H0 Hidx).
    destruct (carousel_frame st) as [[Hf1 [Hf2 [Hf3 [Hf4 Hf5]]]] _].
    rewrite Hf1, Hf2, Hf3, Hf4, Hf5.
    split; [exact Hincl|]. split; [exact Hcart|].
    split; [exact Hsel|]. split; [exact Hco | exact Hi'].
  - (* indicator *)
    simpl. split; [exact Hincl|]. split; [exact Hcart|].
    split; [exact Hsel|]. split; [exact Hco|].
    exists (Z.of_nat idx). simpl. split; [reflexivity|]. split; [lia|].
    intros p' Hp'. rewrite H in Hp'. inversion Hp'; subst. lia.
  - (* buy now *)
    assert (Hc : cart (buyNow rnd p st) = cart (fst (addToCart rnd p st)))
      by apply buyNow_cart.
    assert (Hframe : buyNow rnd p st
                     = (st |> setCart (cart (fst (addToCart rnd p st)))
                           |> setShowCart false |> setShowCheckout true
                           |> setShowOrders false |> setSelectedProduct None)).
    { unfold buyNow, addToCart. now destruct (find _ (cart st)). }
    rewrite Hframe. simpl.
    split; [exact Hincl|].
    split; [apply addToCart_cartOK; [exact Hcart | now apply Hsel | exact H0]|].
    split; [discriminate|]. split; [intros _; apply addToCart_nonempty|].
    keep_index Hidx.
  - (* quantity *)
    assert (Hk := panel_cart_flags st H Hex).
    rewrite updateQuantity_frame. simpl.
    split; [exact Hincl|]. split; [now apply updateQuantity_cartOK|].
    split; [exact Hsel|]. split; [congruence|]. keep_index Hidx.
  - (* proceed *)
    simpl. repeat split; try assumption; try apply Hcart;
      try (intros _; exact H); try (keep_index Hidx).
  - simpl. repeat split; try assumption; try apply Hcart; try (keep_index Hidx).
  - (* settled *)
    destruct response; simpl.
    + split; [exact Hincl|]. split; [split; constructor|].
      split; [exact Hsel|]. split; [discriminate|]. keep_index Hidx.
    + repeat split; try assumption; try apply Hcart.
    + repeat split; try assumption; try apply Hcart.
  - simpl. repeat split; try assumption; try apply Hcart;
      try discriminate; try (keep_index Hidx).
Qed.

Lemma filterEffect_stateOK {platform : JS.Platform} (st : State) :
  stateOK st -> stateOK (filterEffect st).
Proof.
  intros [Hload [Hincl [Hcart [Hsel [Hco Hidx]]]]].
  unfold stateOK. simpl.
  split; [exact Hload|]. split; [|tauto].
  rewrite searchFilter_unfold. intros p Hp.
  apply filter_In in Hp. destruct Hp as [Hp _].
  apply filter_In in Hp. tauto.
Qed.

Lemma Forall_replaceNth {A : Type} (P : A -> Prop) (k : nat) (x : A)
    (l : list A) :
  Forall P l -> P x -> Forall P (replaceNth k x l).
Proof.
  intros Hl Hx. revert k.
  induction Hl as [|y l Hy Hl IH]; intros k; destruct k; simpl;
    constructor; auto.
Qed.

Lemma Forall_removeNth {A : Type} (P : A -> Prop) (k : nat) (l : list A) :
  Forall P l -> Forall P (removeNth k l).
Proof.
  intros Hl. revert k.
  induction Hl as [|y l Hy Hl IH]; intros k; destruct k; simpl;
    try constructor; auto.
Qed.

Lemma Forall_nth_error {A : Type} (P : A -> Prop) (k : nat) (x : A)
    (l : list A) :
  Forall P l -> nth_error l k = Some x -> P x.
Proof.
  intros Hl Hk. apply nth_error_In in Hk. revert x Hk.
  now apply Forall_forall.
Qed.

Lemma panel_checkout_flag (st : State) :
  panel st = Checkout -> showCheckout st = true.
Proof.
  unfold panel.
  destruct (orderConfirmation st), (showOrders st), (selectedProduct st),
    (showCart st), (showCheckout st); simpl; congruence.
Qed.

Lemma act_browserOK {platform : JS.Platform} (a : Action) (b b' : Browser) :
  browserOK b -> act a b = Some b' -> browserOK b'.
Proof.
  intros Hb Hact.
  assert (Hex' := act_loosely_exclusive a b b' (proj1 Hb) Hact).
  destruct b as [[st db] flights].
  destruct Hb as [Hex [Hst [Hfilt [Hfl Hall]]]]. simpl in Hex, Hst, Hfilt, Hfl, Hall.
  unfold browserOK. split; [exact Hex'|]. clear Hex'.
  assert (Hstep : forall e w',
             step e (st, db) = Some w' ->
             stateOK (fst w')
             /\ filteredProducts (fst w')
                = searchFilter (products (fst w')) (selectedCategory (fst w'))
                    (searchTerm (fst w'))
             /\ loading (fst w') = false).
  { intros e [st1 db1] Hs. unfold step in Hs.
    destruct (handle e (st, db)) as [[st2 db2]|] eqn:Hh; [|discriminate].
    destruct (handle_moves e st st2 db db2 Hh) as [Hm Hl].
    inversion Hs; subst. simpl.
    split; [|split; [reflexivity | exact Hl]].
    apply filterEffect_stateOK. now apply (moves_stateOK st st2). }
  destruct a as [e | k | k].
  - destruct e;
      try (simpl in Hact;
           destruct (step _ (st, db)) as [w1|] eqn:Hs; [|discriminate];
           inversion Hact; subst; simpl;
           destruct (Hstep _ _ Hs) as [H1 [H2 H3]];
           split; [exact H1|]; split; [exact H2|];
           split; [congruence | exact Hall]).
    simpl in Hact.
    destruct (render st) as [P|] eqn:Hr; [|discriminate].
    apply render_some in Hr. destruct Hr as [Hl HP].
    destruct P; try discriminate.
    assert (Hco : cart st <> []).
    { apply Hst. now apply panel_checkout_flag. }
    destruct (negb (JS.truthy (JS.trim (address st)))) eqn:Hblank;
      inversion Hact; subst; simpl.
    + split; [now apply filterEffect_stateOK|].
      split; [reflexivity|]. split; [congruence | exact Hall].
    + split; [now apply filterEffect_stateOK|].
      split; [reflexivity|]. split; [congruence|].
      apply Forall_app. split; [exact Hall|].
      constructor; [|constructor]. unfold flightOK. simpl.
      split; [now apply negb_false_iff in Hblank|]. split; [exact Hco|].
      destruct Hst as [_ [_ [[Hq _] _]]].
      eapply Forall_impl; [|exact Hq]. simpl. tauto.
  - simpl in Hact.
    destruct (nth_error flights k) as [[st0 [net | response]]|] eqn:Hk;
      try discriminate.
    destruct (fetchCheckout net (checkoutData st0) db) as [response db1].
    inversion Hact; subst. simpl.
    split; [exact Hst|]. split; [exact Hfilt|]. split.
    + intros Hl. apply Hfl in Hl. subst flights. destruct k; discriminate.
    + apply Forall_replaceNth; [exact Hall|].
      exact (Forall_nth_error flightOK k _ flights Hall Hk).
  - simpl in Hact.
    destruct (nth_error flights k) as [[st0 [net | response]]|] eqn:Hk;
      try discriminate.
    inversion Hact; subst. simpl.
    assert (Hl : loading st = false).
    { destruct (loading st) eqn:E; [|reflexivity].
      rewrite (Hfl eq_refl) in Hk. destruct k; discriminate. }
    assert (Hl' : loading (fst (afterFetch st0 response st)) = false).
    { destruct response; simpl; exact Hl. }
    split.
    + apply filterEffect_stateOK.
      apply (moves_stateOK st); try assumption. apply moved_settled.
    + split; [reflexivity|]. split; [simpl; congruence|].
      now apply Forall_removeNth.
Qed.

Lemma reachableBrowser_OK {platform : JS.Platform} (b : Browser) :
  reachableBrowser b -> browserOK b.
Proof.
  induction 1 as [db | b b' a Hreach IH Hact].
  - unfold browserOK, stateOK, looselyExclusive, cartOK, indexOK. simpl.
    repeat split; try (intros; discriminate); try constructor; try lia;
      try (intros p []);
      try (exists 0; repeat split; try lia; intros; discriminate).
  - now apply (act_browserOK a b b').
Qed.

Lemma play_reachable {platform : JS.Platform} (acts : list Action) (b b' : Browser) :
  reachableBrowser b -> play acts b = Some b' -> reachableBrowser b'.
Proof.
  revert b. induction acts as [|a acts IH]; intros b Hb Hplay; simpl in Hplay.
  - now inversion Hplay; subst.
  - destruct (act a b) as [b1|] eqn:Hact; [|discriminate].
    apply (IH b1); [|exact Hplay]. now apply browser_act with b a.
Qed.

(** Every state of the client with each response handled at once is a
    state of the browser with no request under way. *)
Lemma reachable_in_browser {platform : JS.Platform} (w : World) :
  reachable w -> reachableBrowser (w, []).
Proof.
  induction 1 as [db | w w' e Hreach IH Hstep].
  - apply browser_init.
  - destruct w as [st db].
    apply (play_reachable (unhurried e st) ((st, db), [])); [exact IH|].
    now apply step_is_unhurried_play.
Qed.

(** X11.  In every reachable state of the browser -- whatever the order of
    events and responses -- every cart entry has a quantity of at least 1
    and no two entries stand for the same product id: a product has at
    most one entry, and the header's cart counter counts products, not
    units. *)
Theorem cart_quantities_positive_products_distinct {platform : JS.Platform} :
  forall b : Browser,
    reachableBrowser b ->
    let c := cart (fst (fst b)) in
    Forall (fun item => 1 <= CartEntry.quantity item) c
    /\ NoDup (map CartEntry.product_id c)
    /\ (forall pid, (List.length (entriesFor pid c) <= 1)%nat)
    /\ (forall x y, In x c -> In y c ->
                    CartEntry.product_id x = CartEntry.product_id y -> x = y).
Proof.
  intros b Hreach c.
  destruct (reachableBrowser_OK b Hreach) as [_ [Hst _]].
  destruct Hst as [_ [_ [[Hall Hnd] _]]]. fold c in Hall, Hnd.
  split; [eapply Forall_impl; [|exact Hall]; simpl; tauto|].
  split; [exact Hnd|]. split.
  - intros pid. unfold entriesFor. clear Hall.
    induction c as [|x c IH]; simpl; [lia|].
    inversion Hnd as [|? ? Hnotin Hnd']; subst.
    destruct (Z.eqb_spec (CartEntry.product_id x) pid) as [E|E].
    + simpl. assert (Hnone : filter (fun item => CartEntry.product_id item =? pid) c = []).
      { destruct (filter _ c) as [|y l] eqn:Hf; [reflexivity|].
        exfalso. apply Hnotin.
        assert (Hy : In y (filter (fun item => CartEntry.product_id item =? pid) c))
          by (rewrite Hf; now left).
        apply filter_In in Hy. destruct Hy as [Hy Hpid].
        apply Z.eqb_eq in Hpid. rewrite E, <- Hpid. now apply in_map. }
      rewrite Hnone. simpl. lia.
    + now apply IH.
  - intros x y Hx Hy Heq.
    now apply (NoDup_map_injective CartEntry.product_id c).
Qed.

Lemma cart_quantities_positive_products_distinct_witness :
  Forall (fun item => 1 <= CartEntry.quantity item) (cart (fst checkoutWorld)).
Proof.
  exact (proj1 (cart_quantities_positive_products_distinct (platform := Sample.platform)
           (checkoutWorld, [])
                  (reachable_in_browser checkoutWorld
                     (run_reachable session (initialState, Sample.db)
                        checkoutWorld (reachable_init Sample.db) eq_refl)))).
Defined.

(** X12.  In every reachable state of the browser each cart entry is the
    projection of a product of the loaded catalog -- same id, name, price
    and first image -- whose stock is not 0; so the cart total is the sum
    of catalog prices times quantities.  The selected product is a catalog
    product, and the list on display is the filter of the catalog by the
    current category and search term. *)
Theorem cart_entries_mirror_catalog {platform : JS.Platform} :
  forall b : Browser,
    reachableBrowser b ->
    let st := fst (fst b) in
    (forall item, In item (cart st) ->
       exists p, In p (products st)
                 /\ mirrors p item
                 /\ Product.stock p <> 0)
    /\ (forall p, selectedProduct st = Some p -> In p (products st))
    /\ filteredProducts st
       = searchFilter (products st) (selectedCategory st) (searchTerm st)
    /\ (forall p, In p (filteredProducts st) -> In p (products st)).
Proof.
  intros b Hreach st.
  destruct (reachableBrowser_OK b Hreach) as [_ [Hst [Hfilt _]]].
  destruct Hst as [_ [Hincl [[Hall _] [Hsel _]]]].
  fold st in Hincl, Hall, Hsel, Hfilt.
  split; [|split; [exact Hsel | split; [exact Hfilt | exact Hincl]]].
  intros item Hin.
  apply (proj1 (Forall_forall _ _) Hall) in Hin. tauto.
Qed.

Lemma cart_entries_mirror_catalog_witness :
  exists p, In p (products (fst checkoutWorld))
            /\ mirrors p (CartEntry.mk 5 1 (JS.lit "Red Shirt") 19.99%float
                            (Some (JS.lit "/img/shirt-1.jpg")) 1)
            /\ Product.stock p <> 0.
Proof.
  exact (proj1 (cart_entries_mirror_catalog (platform := Sample.platform)
           (checkoutWorld, [])
                  (reachable_in_browser checkoutWorld
                     (run_reachable session (initialState, Sample.db)
                        checkoutWorld (reachable_init Sample.db) eq_refl)))
           _ (or_introl eq_refl)).
Defined.

(** X13.  Every checkout request that leaves the client carries an
    address that is not blank and at least one item, each of quantity at
    least 1, and as [cart_total] the sum over its items of price times
    quantity (as JS numbers, in the order of the items); and whenever
    [showCheckout] is on the cart is not empty, so the checkout form never
    reviews an empty order. *)
Theorem requests_carry_items_and_address {platform : JS.Platform} :
  forall b : Browser,
    reachableBrowser b ->
    (forall st0 stage,
       In (st0, stage) (snd b) ->
       let req := checkoutData st0 in
       ~ blank (CheckoutData.shipping_address req)
       /\ CheckoutData.items req <> []
       /\ Forall (fun item => 1 <= LineItem.quantity item) (CheckoutData.items req)
       /\ CheckoutData.cart_total req = sumOfLines (CheckoutData.items req))
    /\ (showCheckout (fst (fst b)) = true -> cart (fst (fst b)) <> [])
    /\ (forall net b',
          act (Ui (PlaceOrder net)) b = Some b' ->
          cart (fst (fst b)) <> []
          /\ (snd b' = snd b
              \/ snd b' = (snd b ++ [(fst (fst b), Sent net)])%list)).
Proof.
  intros b Hreach.
  destruct (reachableBrowser_OK b Hreach) as [_ [Hst [_ [_ Hall]]]].
  assert (Hco : showCheckout (fst (fst b)) = true -> cart (fst (fst b)) <> [])
    by apply Hst.
  split; [|split; [exact Hco|]].
  - intros st0 stage Hin req.
    apply (proj1 (Forall_forall _ _) Hall) in Hin.
    destruct Hin as [Haddr [Hne Hq]]. simpl in Haddr, Hne, Hq.
    subst req. simpl. split; [now apply truthy_trim_not|]. split.
    + destruct (cart st0); [contradiction | discriminate].
    + split; [|apply (cartTotal_sum (cart st0))].
      apply Forall_map. eapply Forall_impl; [|exact Hq]. simpl. tauto.
  - intros net b' Hact. destruct b as [[st db] flights]. simpl in *.
    destruct (render st) as [[]|] eqn:Hr; try discriminate.
    apply render_some in Hr. destruct Hr as [_ HP].
    split; [apply Hco; now apply panel_checkout_flag|].
    destruct (negb (JS.truthy (JS.trim (address st))));
      inversion Hact; subst; simpl; tauto.
Qed.

Lemma requests_carry_items_and_address_witness :
  cart (fst checkoutWorld) <> [].
Proof.
  exact (proj1 (proj2 (requests_carry_items_and_address (platform := Sample.platform)
           (checkoutWorld, [])
                         (reachable_in_browser checkoutWorld
                            (run_reachable session (initialState, Sample.db)
                               checkoutWorld (reachable_init Sample.db) eq_refl))))
           eq_refl).
Defined.

Lemma getProductImages_truthy (p : Product.t) :
  Forall (fun u => JS.truthy u = true) (getProductImages p).
Proof.
  unfold getProductImages.
  destruct (Product.image_url p) as [[|a1 u1]|];
    destruct (Product.image_url2 p) as [[|a2 u2]|];
    destruct (Product.image_url3 p) as [[|a3 u3]|];
    simpl; repeat constructor.
Qed.

(** X14.  In every reachable state of the browser the carousel index is a
    number (never [NaN]) that points into the images of the selected
    product: with images, the picture shown is the image at the index;
    with none, the index is 0 and the picture falls back to
    [image_url]. *)
Theorem carousel_index_in_range {platform : JS.Platform} :
  forall (b : Browser) (p : Product.t),
    reachableBrowser b ->
    selectedProduct (fst (fst b)) = Some p ->
    exists i : nat,
      currentImageIndex (fst (fst b)) = JS.Num (Z.of_nat i)
      /\ (getProductImages p <> [] ->
            exists u, nth_error (getProductImages p) i = Some u
                      /\ carouselSrc p (currentImageIndex (fst (fst b))) = Some u)
      /\ (getProductImages p = [] ->
            i = 0%nat
            /\ carouselSrc p (currentImageIndex (fst (fst b)))
               = Product.image_url p).
Proof.
  intros b p Hreach Hsel.
  destruct (reachableBrowser_OK b Hreach) as [_ [Hst _]].
  destruct Hst as [_ [_ [_ [_ [_ [i [Hi [Hpos Hrange]]]]]]]].
  specialize (Hrange p Hsel).
  exists (Z.to_nat i). rewrite Z2Nat.id by exact Hpos.
  split; [exact Hi|]. rewrite Hi. unfold carouselSrc.
  destruct (Z.ltb_spec i 0); [lia|]. split.
  - intros Hne.
    assert (Hlt : (Z.to_nat i < List.length (getProductImages p))%nat).
    { destruct (getProductImages p); [contradiction|]. simpl in *. lia. }
    destruct (nth_error (getProductImages p) (Z.to_nat i)) as [u|] eqn:Hnth.
    + exists u. split; [reflexivity|].
      assert (Hu : JS.truthy u = true).
      { exact (Forall_nth_error _ _ _ _ (getProductImages_truthy p) Hnth). }
      now rewrite Hu.
    + apply nth_error_None in Hnth. lia.
  - intros Hnil. rewrite Hnil in *. simpl in Hrange.
    split; [lia|]. now destruct (Z.to_nat i).
Qed.

Lemma carousel_index_in_range_witness :
  exists i : nat,
    currentImageIndex (fst (fst viewing)) = JS.Num (Z.of_nat i).
Proof.
  destruct (carousel_index_in_range (platform := Sample.platform) viewing Sample.redShirt
              (play_reachable viewingActs ((initialState, Sample.db), [])
                 viewing (browser_init Sample.db) eq_refl)
              eq_refl) as [i [Hi _]].
  exists i. exact Hi.
Defined.

(** ** The header buttons *)

(** X15.  With each response handled at once, in every reachable state on
    display: Home leads to the catalog; the Cart button leads to the cart
    panel, unless the cart panel is the one showing, which it closes; the
    Orders button does the same for the order history; a second click on
    Cart undoes the first when the cart was open and otherwise lands on the
    catalog; and Continue Shopping does exactly what Home does.  None of
    them touches the cart, the orders or the address. *)
Theorem header_buttons_toggle {platform : JS.Platform} :
  forall (w : World) (P : Panel),
    reachable w ->
    render (fst w) = Some P ->
    let st := fst w in
    panel (handleHomeClick st) = Catalog
    /\ panel (handleCartClick st)
       = match P with Cart => Catalog | _ => Cart end
    /\ panel (handleOrdersClick st)
       = match P with Orders => Catalog | _ => Orders end
    /\ panel (handleCartClick (handleCartClick st))
       = match P with Cart => Cart | _ => Catalog end
    /\ onContinueShopping st = handleHomeClick st
    /\ (forall h, In h [handleHomeClick; handleCartClick; handleOrdersClick] ->
          cart (h st) = cart st
          /\ orders (h st) = orders st
          /\ address (h st) = address st
          /\ products (h st) = products st).
Proof.
  intros w P Hreach Hrender st.
  assert (Hinv := reachable_exclusive w Hreach). fold st in Hinv.
  apply render_some in Hrender. destruct Hrender as [_ HP]. fold st in HP.
  assert (Hframe : forall h,
             In h [handleHomeClick; handleCartClick; handleOrdersClick] ->
             cart (h st) = cart st
             /\ orders (h st) = orders st
             /\ address (h st) = address st
             /\ products (h st) = products st).
  { intros h [<- | [<- | [<- | []]]]; repeat split. }
  split; [reflexivity|].
  assert (Hpanels :
            panel (handleCartClick st)
            = match P with Cart => Catalog | _ => Cart end
            /\ panel (handleOrdersClick st)
               = match P with Orders => Catalog | _ => Orders end
            /\ panel (handleCartClick (handleCartClick st))
               = match P with Cart => Cart | _ => Catalog end).
  { unfold activeIndicators, panel in *. simpl.
    destruct (showCart st), (showCheckout st), (showOrders st),
      (selectedProduct st), (orderConfirmation st); simpl in *;
      try lia; subst P; repeat split. }
  destruct Hpanels as [H1 [H2 H3]].
  split; [exact H1|]. split; [exact H2|]. split; [exact H3|].
  split; [reflexivity | exact Hframe].
Qed.

Lemma header_buttons_toggle_witness :
  panel (handleCartClick (fst checkoutWorld)) = Cart.
Proof.
  exact (proj1 (proj2 (header_buttons_toggle (platform := Sample.platform)
           checkoutWorld Checkout
                         (run_reachable session (initialState, Sample.db)
                            checkoutWorld (reachable_init Sample.db) eq_refl)
                         eq_refl))).
Defined.

(** ** What an event leaves alone *)

Ltac crack_handle H :=
  repeat
    (simpl in H;
     match type of H with
     | None = Some _ => discriminate H
     | context [guard ?b _] => destruct b
     | context [match find ?f ?l with _ => _ end] => destruct (find f l)
     | context [option_map _ (nth_error ?l ?i)] => destruct (nth_error l i)
     | context [match nth_error ?l ?i with _ => _ end] =>
         destruct (nth_error l i)
     | context [match selectedProduct ?s with _ => _ end] =>
         destruct (selectedProduct s)
     | context [Server.checkout ?n ?r ?d] =>
         destruct (Server.checkout n r d) as [[] ?]
     | context [match ?net with Some _ => _ | None => _ end] =>
         is_var net; destruct net
     | context [if ?b then _ else _] => destruct b
     | context [match ?l with [] => _ | _ :: _ => _ end] => destruct l
     | Some _ = Some _ => inversion H; subst; clear H
     end).

(** X16.  What a transition leaves alone.  An event that browses (the
    header buttons, search and category, opening or leaving a product, the
    carousel, proceeding to or leaving the checkout form, typing the
    address) never changes the cart; only placing an order changes the
    order list or the store; only the arrival of the catalog changes the
    catalog; and only typing the address or a placed order changes the
    address. *)
Theorem events_leave_the_rest_alone {platform : JS.Platform} :
  forall (e : Event) (st st' : State) (db db' : Server.Store),
    step e (st, db) = Some (st', db') ->
    (browses e = true -> cart st' = cart st)
    /\ ((forall net, e <> PlaceOrder net) ->
          orders st' = orders st /\ db' = db)
    /\ (e <> ProductsFetched -> products st' = products st)
    /\ ((forall net, e <> PlaceOrder net) ->
        (forall text, e <> AddressInput text) ->
          address st' = address st).
Proof.
  intros e st st' db db' H. unfold step in H.
  destruct (handle e (st, db)) as [[s1 d1]|] eqn:Hh; [|discriminate].
  simpl in H. inversion H; subst. clear H. simpl.
  unfold handle in Hh.
  destruct (render st) as [[]|]; destruct e; try discriminate Hh;
    unfold addToCart, buyNow, CartItem.onMinus, CartItem.onChange,
      CartItem.onPlus, CartItem.onRemove, updateQuantity, removeFromCart,
      handleCheckout, afterFetch, fetchCheckout, nextImage, prevImage in Hh;
    crack_handle Hh;
    repeat split; intros; try discriminate; try reflexivity;
    try congruence;
    try (match goal with
         | Hn : forall n, PlaceOrder ?x <> PlaceOrder n |- _ =>
             destruct (Hn x eq_refl)
         | Hn : forall t, AddressInput ?x <> AddressInput t |- _ =>
             destruct (Hn x eq_refl)
         end).
Qed.

Lemma events_leave_the_rest_alone_witness :
  cart (fst placedWorld) = []
  /\ products (fst placedWorld) = products (fst checkoutWorld).
Proof.
  split; [reflexivity|].
  refine (proj1 (proj2 (proj2
            (events_leave_the_rest_alone (platform := Sample.platform)
               (PlaceOrder (Some (JS.lit "2026-11-03T10:00:00")))
               (fst checkoutWorld) (fst placedWorld)
               (snd checkoutWorld) (snd placedWorld) eq_refl))) _).
  discriminate.
Defined.

(** ** Composing the two filters *)

Lemma filter_comm {A : Type} (f g : A -> bool) (l : list A) :
  filter f (filter g l) = filter g (filter f l).
Proof.
  induction l as [|x l IH]; [reflexivity|]. simpl.
  destruct (f x) eqn:Hf; destruct (g x) eqn:Hg; simpl;
    rewrite ?Hf, ?Hg, IH; reflexivity.
Qed.

Lemma filter_pair_twice {A : Type} (f g : A -> bool) (l : list A) :
  filter f (filter g (filter f (filter g l))) = filter f (filter g l).
Proof.
  induction l as [|x l IH]; [reflexivity|].
  destruct (g x) eqn:Hg; destruct (f x) eqn:Hf;
    do 4 (simpl; rewrite ?Hg, ?Hf); rewrite ?IH; reflexivity.
Qed.

Lemma filter_true {A : Type} (l : list A) : filter (fun _ => true) l = l.
Proof. induction l as [|x l IH]; simpl; [reflexivity | now rewrite IH]. Qed.

(** X17.  The two filters can be applied in either order -- the name
    search first and the category filter on its result gives the same
    list -- and filtering a filtered list again changes nothing.  The
    filter acts product by product: it distributes over the concatenation
    of catalogs and never yields more products than it was given. *)
Theorem searchFilter_composes {platform : JS.Platform} :
  forall (catalog more : list Product.t) (cat term : JS.string),
    searchFilter catalog cat term
    = searchFilter (searchFilter catalog (JS.lit "All") term) cat []
    /\ searchFilter (searchFilter catalog cat term) cat term
       = searchFilter catalog cat term
    /\ searchFilter (catalog ++ more) cat term
       = (searchFilter catalog cat term ++ searchFilter more cat term)%list
    /\ (List.length (searchFilter catalog cat term) <= List.length catalog)%nat.
Proof.
  intros catalog more cat term. rewrite !searchFilter_unfold.
  split; [|split; [|split]].
  - simpl. rewrite !filter_true. apply filter_comm.
  - apply filter_pair_twice.
  - now rewrite !filter_app.
  - eapply Nat.le_trans; apply filter_length_le.
Qed.

(** ** The order on display *)

Lemma act_moves {platform : JS.Platform} (a : Action) (st st' : State)
    (db db' : Server.Store)
    (flights flights' : list Flight) :
  act a ((st, db), flights) = Some ((st', db'), flights') ->
  st' = st \/ exists s1, moves st s1 /\ st' = filterEffect s1.
Proof.
  intros Hact. destruct a as [e | k | k].
  - assert (Hstep : forall w', step e (st, db) = Some w' ->
               exists s1, moves st s1 /\ fst w' = filterEffect s1).
    { intros [s2 d2] Hs. unfold step in Hs.
      destruct (handle e (st, db)) as [[s1 d1]|] eqn:Hh; [|discriminate].
      destruct (handle_moves e st s1 db d1 Hh) as [Hm _].
      inversion Hs; subst. now exists s1. }
    destruct e;
      try (simpl in Hact;
           destruct (step _ (st, db)) as [w1|] eqn:Hs; [|discriminate];
           destruct (Hstep _ eq_refl) as [s1 [Hm Hf]];
           inversion Hact; subst; right; exists s1;
           split; [exact Hm | exact Hf]).
    simpl in Hact.
    destruct (render st) as [[]|]; try discriminate.
    right. exists st. split; [apply (moved_settled st st FetchThrows)|].
    destruct (negb (JS.truthy (JS.trim (address st))));
      inversion Hact; subst; reflexivity.
  - simpl in Hact.
    destruct (nth_error flights k) as [[st0 [net | response]]|];
      try discriminate.
    destruct (fetchCheckout net (checkoutData st0) db).
    left. inversion Hact; subst; reflexivity.
  - simpl in Hact.
    destruct (nth_error flights k) as [[st0 [net | response]]|];
      try discriminate.
    right. exists (fst (afterFetch st0 response st)).
    split; [apply moved_settled | inversion Hact; subst; reflexivity].
Qed.

(** An invariant of the moves and of the filter effect holds in every
    reachable state of the browser. *)
Lemma reachableBrowser_invariant {platform : JS.Platform} (P : State -> Prop) :
  P initialState ->
  (forall st st', P st -> moves st st' -> P st') ->
  (forall st, P st -> P (filterEffect st)) ->
  forall b, reachableBrowser b -> P (fst (fst b)).
Proof.
  intros Hinit Hmoves Hfilter b Hreach.
  induction Hreach as [db | b b' a Hreach IH Hact]; [exact Hinit|].
  destruct b as [[st db] flights]. destruct b' as [[st' db'] flights'].
  simpl in *.
  destruct (act_moves a st st' db db' flights flights' Hact)
    as [-> | [s1 [Hm ->]]]; [exact IH|].
  apply Hfilter. now apply (Hmoves st).
Qed.

(** X18.  In every reachable state of the browser the order whose
    confirmation is on display is the last order of the order list in
    memory. *)
Theorem confirmation_is_last_order {platform : JS.Platform} :
  forall (b : Browser) (order : Order.t),
    reachableBrowser b ->
    orderConfirmation (fst (fst b)) = Some order ->
    exists earlier : list Order.t,
      orders (fst (fst b)) = (earlier ++ [order])%list.
Proof.
  intros b order Hreach. revert order.
  apply (reachableBrowser_invariant
           (fun st => forall order, orderConfirmation st = Some order ->
                        exists earlier, orders st = (earlier ++ [order])%list));
    [ | | | exact Hreach].
  - discriminate.
  - intros st st' IH Hm.
    destruct Hm; try (simpl; exact IH); try (simpl; discriminate).
    + rewrite addToCart_frame. exact IH.
    + unfold prevImage. rewrite H. exact IH.
    + unfold nextImage. rewrite H. exact IH.
    + unfold buyNow. destruct (find _ (cart st)); exact IH.
    + rewrite updateQuantity_frame. exact IH.
    + destruct response; simpl; try exact IH.
      intros o Ho. inversion Ho; subst. now exists (orders st0).
  - intros st IH. exact IH.
Qed.

Lemma confirmation_is_last_order_witness :
  exists earlier : list Order.t,
    orders (fst placedWorld)
    = (earlier ++ [Order.mk 1 19.99%float (JS.lit "221B Baker St") (JS.lit "confirmed")
                     (JS.lit "2026-11-03T10:00:00")])%list.
Proof.
  exact (confirmation_is_last_order (platform := Sample.platform) (placedWorld, []) _
           (reachable_in_browser placedWorld
              (reachable_step checkoutWorld placedWorld
                 (PlaceOrder (Some (JS.lit "2026-11-03T10:00:00")))
                 (run_reachable session (initialState, Sample.db)
                    checkoutWorld (reachable_init Sample.db) eq_refl)
                 eq_refl))
           eq_refl).
Defined.

(** ** The outcomes of a checkout *)

(** X19.  [handleCheckout], for any backend: with a blank address (empty
    or white space only) the backend is not contacted and the one alert
    asks for the address; otherwise exactly one request is made, with the
    address and the items of the cart.  A successful response is the only
    outcome that changes the state, and the only one without an alert; any
    other response, and an exception, leave the state as it was -- the
    cart and the address are kept -- and alert exactly once: an error
    response with its [detail] when that is truthy (a string that is not
    empty, or another truthy value as the text it converts to), and with
    "Unknown error" when it is not. *)
Theorem handleCheckout_outcomes :
  forall (Backend : Type)
         (fetch : CheckoutData.t -> Backend -> Response * Backend)
         (st : State) (backend : Backend),
    let result := handleCheckout fetch st backend in
    (blank (address st) ->
       result = (st, [JS.lit "Please enter shipping address"], backend))
    /\ (~ blank (address st) ->
          snd result = snd (fetch (checkoutData st) backend)
          /\ CheckoutData.shipping_address (checkoutData st) = address st
          /\ CheckoutData.items (checkoutData st) = map lineOf (cart st)
          /\ match fst (fetch (checkoutData st) backend) with
             | ResOk order =>
                 snd (fst result) = []
                 /\ orderConfirmation (fst (fst result)) = Some order
             | ResError (DetailText (c :: d)) =>
                 fst result = (st, [JS.lit "Checkout failed: " ++ c :: d])
             | ResError (DetailValue shown) =>
                 fst result = (st, [JS.lit "Checkout failed: " ++ shown])
             | ResError (DetailText []) | ResError DetailFalsy =>
                 fst result = (st, [JS.lit "Checkout failed: Unknown error"])
             | FetchThrows =>
                 fst (fst result) = st
                 /\ List.length (snd (fst result)) = 1%nat
             end)
    /\ (fst (fst result) = st \/ snd (fst result) = [])
    /\ (List.length (snd (fst result)) <= 1)%nat.
Proof.
  intros Backend fetch st backend result. subst result.
  unfold handleCheckout.
  destruct (JS.truthy (JS.trim (address st))) eqn:Htrim; simpl.
  - split; [intros Hblank; apply truthy_trim in Hblank; congruence|].
    destruct (fetch (checkoutData st) backend) as [response b'].
    destruct response as [order | [[|c d] | shown | ] | ]; simpl;
      repeat split; auto.
  - split; [reflexivity|].
    split; [intros Hnot; apply truthy_trim_not in Hnot; congruence|].
    split; [now left | lia].
Qed.

Lemma handleCheckout_outcomes_witness :
  handleCheckout (fetchCheckout None) Sample.atCheckout Sample.db
  = (Sample.atCheckout,
     [JS.lit "Error during checkout. Make sure backend is running on http://localhost:8000"],
     Sample.db)
  /\ handleCheckout (fetchCheckout None)
       (Sample.atCheckout |> setAddress (8195%N :: JS.lit " ")) Sample.db
     = (Sample.atCheckout |> setAddress (8195%N :: JS.lit " "),
        [JS.lit "Please enter shipping address"], Sample.db)
  /\ fst (handleCheckout
            (fun (_ : CheckoutData.t) (db : Server.Store) =>
               (ResError (DetailValue (JS.lit "[object Object]")), db))
            Sample.atCheckout Sample.db)
     = (Sample.atCheckout, [JS.lit "Checkout failed: [object Object]"]).
Proof.
  split; [reflexivity|]. split.
  - refine (proj1 (handleCheckout_outcomes Server.Store (fetchCheckout None)
                     (Sample.atCheckout |> setAddress (8195%N :: JS.lit " "))
                     Sample.db) _).
    unfold blank; cbn [address setAddress];
      repeat (apply Forall_cons; [in_table|]); apply Forall_nil.
  - refine (proj2 (proj2 (proj2
              (proj1 (proj2
                 (handleCheckout_outcomes Server.Store
                    (fun (_ : CheckoutData.t) (db : Server.Store) =>
                       (ResError (DetailValue (JS.lit "[object Object]")), db))
                    Sample.atCheckout Sample.db)) _)))).
    apply truthy_trim_not. reflexivity.
Defined.

(** ** The cart and the catalog, the order list *)

(** X20.  In every reachable state of the browser the header's cart
    counter is at most the number of products of the catalog, and it is 0
    while the catalog is loading. *)
Theorem cart_count_at_most_catalog {platform : JS.Platform} :
  forall b : Browser,
    reachableBrowser b ->
    let st := fst (fst b) in
    (Header.cartCount st <= List.length (products st))%nat
    /\ (loading st = true -> Header.cartCount st = 0%nat).
Proof.
  intros b Hreach st.
  destruct (reachableBrowser_OK b Hreach) as [_ [Hst _]].
  destruct Hst as [Hload [_ [[Hall Hnd] _]]]. fold st in Hload, Hall, Hnd.
  unfold Header.cartCount. split.
  - rewrite <- (length_map CartEntry.product_id (cart st)).
    rewrite <- (length_map Product.id (products st)).
    apply NoDup_incl_length; [exact Hnd|].
    intros pid Hpid. apply in_map_iff in Hpid.
    destruct Hpid as [item [Hid Hitem]].
    apply (proj1 (Forall_forall _ _) Hall) in Hitem.
    destruct Hitem as [_ [p [Hp [[Hm _] _]]]].
    apply in_map_iff. exists p. split; [congruence | exact Hp].
  - intros Hl. destruct (Hload Hl) as [Hc _]. now rewrite Hc.
Qed.

Lemma cart_count_at_most_catalog_witness :
  (Header.cartCount (fst checkoutWorld)
   <= List.length (products (fst checkoutWorld)))%nat.
Proof.
  exact (proj1 (cart_count_at_most_catalog (platform := Sample.platform)
           (checkoutWorld, [])
                  (reachable_in_browser checkoutWorld
                     (run_reachable session (initialState, Sample.db)
                        checkoutWorld (reachable_init Sample.db) eq_refl)))).
Defined.

(** X21.  With each response handled at once, a transition never loses an
    order: the order list stays, or it gains one order at its end, and
    that only by placing an order, whose confirmation is then shown with
    the cart and the address emptied. *)
Theorem order_list_only_grows {platform : JS.Platform} :
  forall (e : Event) (st st' : State) (db db' : Server.Store),
    step e (st, db) = Some (st', db') ->
    orders st' = orders st
    \/ exists (order : Order.t) (net : option JS.string),
         e = PlaceOrder net
         /\ orders st' = (orders st ++ [order])%list
         /\ orderConfirmation st' = Some order
         /\ cart st' = []
         /\ address st' = [].
Proof.
  intros e st st' db db' H. unfold step in H.
  destruct (handle e (st, db)) as [[s1 d1]|] eqn:Hh; [|discriminate].
  simpl in H. inversion H; subst. clear H. simpl.
  unfold handle in Hh.
  destruct (render st) as [[]|]; destruct e; try discriminate Hh;
    unfold addToCart, buyNow, CartItem.onMinus, CartItem.onChange,
      CartItem.onPlus, CartItem.onRemove, updateQuantity, removeFromCart,
      handleCheckout, afterFetch, fetchCheckout, nextImage, prevImage in Hh;
    crack_handle Hh;
    try (left; reflexivity).
  right. eexists. eexists. repeat split.
Qed.

Lemma order_list_only_grows_witness :
  orders (fst placedWorld)
  = (orders (fst checkoutWorld)
     ++ [Order.mk 1 19.99%float (JS.lit "221B Baker St") (JS.lit "confirmed")
         (JS.lit "2026-11-03T10:00:00")])%list.
Proof.
  destruct (order_list_only_grows (platform := Sample.platform) (PlaceOrder
      (Some (JS.lit "2026-11-03T10:00:00")))
              (fst checkoutWorld) (fst placedWorld)
              (snd checkoutWorld) (snd placedWorld) eq_refl)
    as [Hsame | [order [net [_ [Hgrow _]]]]].
  - discriminate Hsame.
  - reflexivity.
Defined.
